(** * WebWorldWind shape editor: [BaseSurfaceEditorFragment]

    A shallow embedding of [src/util/editor/BaseSurfaceEditorFragment.js] and
    [src/util/editor/ShapeEditorConstants.js], with the properties of the
    editor's geometric helpers stated and proved over it.

    Layout of the development:
    - [Number]: the interface of JavaScript numbers the code computes with, with
      two instances: IEEE binary64 ([float], what the engine executes) and the
      real numbers ([R], the exact arithmetic the specification reasons in);
    - the collaborators the fragment consumes ([Angle], [Vec3], [Location],
      [Position], [Globe], great-circle functions, [Logger], [Placemark]);
    - the fragment's functions, one definition per source function;
    - the properties. *)

From Stdlib Require Import ZArith Reals Lra Lia Floats.
From stdpp Require Import base list strings gmap.

(** ** JavaScript numbers *)

(** The operations of the JavaScript number type that the fragment uses.
    [nlt] and [nle] are the operators [<] and [<=];
    [nmod] is [%], whose result has the sign of the dividend. *)
Class Number (num : Type) := {
  ofZ : Z -> num;
  nadd : num -> num -> num;
  nsub : num -> num -> num;
  nmul : num -> num -> num;
  ndiv : num -> num -> num;
  nmod : num -> num -> num;
  nabs : num -> num;
  nsqrt : num -> num;
  nlt : num -> num -> bool;
  nle : num -> num -> bool;
  Math_PI : num;
  Number_MAX_VALUE : num
}.

Declare Scope js_scope.
Delimit Scope js_scope with js.
Notation "x + y" := (nadd x y) : js_scope.
Notation "x - y" := (nsub x y) : js_scope.
Notation "x * y" := (nmul x y) : js_scope.
Notation "x / y" := (ndiv x y) : js_scope.
Notation "x 'mod' y" := (nmod x y) : js_scope.
Notation "x <? y" := (nlt x y) : js_scope.
Notation "x >? y" := (nlt y x) : js_scope.
Notation "x <=? y" := (nle x y) : js_scope.
Notation "x >=? y" := (nle y x) : js_scope.
Notation "# z" := (ofZ z) (at level 1, format "# z") : js_scope.

(** *** Instance 1: IEEE 754 binary64 *)

(** [x % y] on binary64. The remainder of two finite doubles is a double, so it
    is computed exactly on the integer mantissas: with [e0] the smaller of the
    two exponents, both operands are integer multiples of [2^e0], and the
    remainder of the two integers is below [2^53]. *)
Definition float_mod (x y : float) : float :=
  match Prim2SF x, Prim2SF y with
  | S754_nan, _ | _, S754_nan => nan
  | S754_infinity _, _ => nan
  | _, S754_zero _ => nan
  | S754_zero _, _ => x
  | S754_finite _ _ _, S754_infinity _ => x
  | S754_finite sx mx ex, S754_finite _ my ey =>
      let e0 := Z.min ex ey in
      let r := Z.rem (Z.pos mx * 2 ^ (ex - e0)) (Z.pos my * 2 ^ (ey - e0)) in
      let f := FloatOps.Z.ldexp (PrimFloat.of_uint63 (Uint63.of_Z r)) e0 in
      if sx then PrimFloat.opp f else f
  end.

(** Integer literals of the source, as doubles (all of them are far below
    [2^53], so the conversion is exact). *)
Definition float_ofZ (z : Z) : float :=
  match z with
  | Z.neg p => PrimFloat.opp (PrimFloat.of_uint63 (Uint63.of_Z (Z.pos p)))
  | _ => PrimFloat.of_uint63 (Uint63.of_Z z)
  end.

#[export] Instance float_Number : Number float := {|
  ofZ := float_ofZ;
  nadd := PrimFloat.add;
  nsub := PrimFloat.sub;
  nmul := PrimFloat.mul;
  ndiv := PrimFloat.div;
  nmod := float_mod;
  nabs := PrimFloat.abs;
  nsqrt := PrimFloat.sqrt;
  nlt := PrimFloat.ltb;
  nle := PrimFloat.leb;
  Math_PI := 0x1.921fb54442d18p+1%float;
  Number_MAX_VALUE := 0x1.fffffffffffffp+1023%float
|}.

(** *** Instance 2: exact real arithmetic *)

(** Truncation towards zero, and the remainder it defines. *)
Definition Rtrunc (x : R) : R :=
  if Rle_dec 0 x then IZR (Int_part x) else (- IZR (Int_part (- x)))%R.

Definition Rmod (x y : R) : R := (x - y * Rtrunc (x / y))%R.

Definition Rltb (x y : R) : bool := if Rlt_dec x y then true else false.
Definition Rleb (x y : R) : bool := if Rle_dec x y then true else false.

#[export] Instance R_Number : Number R := {|
  ofZ := IZR;
  nadd := Rplus;
  nsub := Rminus;
  nmul := Rmult;
  ndiv := Rdiv;
  nmod := Rmod;
  nabs := Rabs;
  nsqrt := R_sqrt.sqrt;
  nlt := Rltb;
  nle := Rleb;
  Math_PI := PI;
  Number_MAX_VALUE := ((2 ^ 1024 - 2 ^ 971))%R
|}.

(** ** Angle constants *)

Module Angle.
Section Angle.
Context {num : Type} `{Number num}.
Local Open Scope js_scope.

(** Modelled from the spec: [geom/Angle.js] is not among the sources; the
    fragment reads three constants of it, the conversion factors between
    degrees and radians and the full turn in radians. *)
Definition DEGREES_TO_RADIANS : num := Math_PI / #180.

Definition RADIANS_TO_DEGREES : num := #180 / Math_PI.

Definition TWO_PI : num := #2 * Math_PI.
End Angle.
End Angle.

(** ** The fragment: heading normalisation *)

Section Heading.
Context {num : Type} `{Number num}.
Local Open Scope js_scope.

(** [BaseSurfaceEditorFragment.prototype.normalizedHeading] *)
Definition normalizedHeading (currentHeading deltaHeading : num) : num :=
  let newHeading :=
    currentHeading * Angle.DEGREES_TO_RADIANS + deltaHeading * Angle.DEGREES_TO_RADIANS in
  let newHeading :=
    if nabs newHeading >? Angle.TWO_PI then newHeading mod Angle.TWO_PI else newHeading in
  Angle.RADIANS_TO_DEGREES *
    (if newHeading >=? #0 then newHeading else newHeading + Angle.TWO_PI).
End Heading.

(** ** Vec3 *)

(** A cartesian point or vector: the array [[x, y, z]] of a [Vec3] object. *)
Record Vec3 (num : Type) := mkVec3 { vx : num; vy : num; vz : num }.
Arguments mkVec3 {num} _ _ _.
Arguments vx {num} _.
Arguments vy {num} _.
Arguments vz {num} _.

(** Computations that read and update a store of objects. *)
Definition State (S A : Type) : Type := S -> A * S.

#[export] Instance State_ret {S} : MRet (State S) := fun A a s => (a, s).
#[export] Instance State_bind {S} : MBind (State S) :=
  fun A B f m s => let '(a, s') := m s in f a s'.

(** [Vec3] objects are mutable and passed by reference. The store holds the
    objects that are live; a reference is an index into it. *)
Definition vref := nat.
Abbreviation vstore num := (list (Vec3 num)).
Abbreviation VM num := (State (vstore num)).

Module Vec3M.
Section Vec3M.
Context {num : Type} `{Number num}.
Local Open Scope js_scope.

Definition ZERO : Vec3 num := mkVec3 #0 #0 #0.

(** *** Arithmetic on the coordinates *)

Definition vadd (a b : Vec3 num) : Vec3 num :=
  mkVec3 (vx a + vx b) (vy a + vy b) (vz a + vz b).

Definition vsub (a b : Vec3 num) : Vec3 num :=
  mkVec3 (vx a - vx b) (vy a - vy b) (vz a - vz b).

Definition vscale (a : Vec3 num) (k : num) : Vec3 num :=
  mkVec3 (vx a * k) (vy a * k) (vz a * k).

Definition vdivide (a : Vec3 num) (k : num) : Vec3 num :=
  mkVec3 (vx a / k) (vy a / k) (vz a / k).

Definition vdot (a b : Vec3 num) : num :=
  vx a * vx b + vy a * vy b + vz a * vz b.

Definition vmagnitude (a : Vec3 num) : num := nsqrt (vdot a a).

Definition vnormalize (a : Vec3 num) : Vec3 num :=
  vscale a (#1 / vmagnitude a).

Definition vdistanceTo (a b : Vec3 num) : num := vmagnitude (vsub a b).

(** *** The store *)

Definition rd (r : vref) : VM num (Vec3 num) :=
  fun s => (default ZERO (s !! r), s).

Definition wr (r : vref) (v : Vec3 num) : VM num unit :=
  fun s => (tt, <[r := v]> s).

(** [new Vec3(x, y, z)] *)
Definition new (x y z : num) : VM num vref :=
  fun s => (length s, s ++ [mkVec3 x y z]).

(** Modelled from the spec: [geom/Vec3.js] is not among the sources. The
    methods are the point and vector arithmetic the spec names. That the
    arithmetic methods store their result in the receiver and return the
    receiver is read off the fragment itself: [moveLocation] calls
    [markerPoint.add(delta)] as a statement and then reads [markerPoint];
    [nearestPointOnSegment] copies [segment] into [segmentCopy] before it
    normalises, and reads [segment.magnitude()] afterwards;
    [addNewControlPoint] hands [nearestPointOnSegment] a fresh copy of
    [pointPicked] and keeps using [pointPicked]. *)
Definition subtract (this vec : vref) : VM num vref :=
  a ← rd this; b ← rd vec; _ ← wr this (vsub a b); mret this.

Definition add (this vec : vref) : VM num vref :=
  a ← rd this; b ← rd vec; _ ← wr this (vadd a b); mret this.

Definition copy (this vec : vref) : VM num vref :=
  b ← rd vec; _ ← wr this b; mret this.

Definition normalize (this : vref) : VM num vref :=
  a ← rd this; _ ← wr this (vnormalize a); mret this.

Definition dot (this vec : vref) : VM num num :=
  a ← rd this; b ← rd vec; mret (vdot a b).

Definition magnitude (this : vref) : VM num num :=
  a ← rd this; mret (vmagnitude a).

(** Modelled from the spec: [Vec3.fromLine(origin, t, direction)], a new
    point at distance [t] from [origin] along [direction] (the spec's
    [p1 + dot * dir]). *)
Definition fromLine (origin : vref) (t : num) (direction : vref) : VM num vref :=
  o ← rd origin; d ← rd direction;
  let p := vadd o (vscale d t) in new (vx p) (vy p) (vz p).
End Vec3M.
End Vec3M.

(** ** The fragment: nearest point on a segment *)

Section NearestPoint.
Context {num : Type} `{Number num}.
Local Open Scope js_scope.

(** [BaseSurfaceEditorFragment.prototype.nearestPointOnSegment] *)
Definition nearestPointOnSegment (p1 p2 point : vref) : VM num vref :=
  segment ← Vec3M.subtract p2 p1;
  segmentCopy ← Vec3M.new #0 #0 #0;
  _ ← Vec3M.copy segmentCopy segment;
  dir ← Vec3M.normalize segmentCopy;
  dot ← (d ← Vec3M.subtract point p1; Vec3M.dot d dir);
  if dot <? #0 then mret p1
  else
    len ← Vec3M.magnitude segment;
    if dot >? len then mret p2
    else Vec3M.fromLine p1 dot dir.

(** The point a call returns, when the three arguments are three distinct
    objects holding [p1], [p2] and [point]: the contents of the returned
    object after the call. *)
Definition nearestPointOnSegment_value (p1 p2 point : Vec3 num) : Vec3 num :=
  let '(r, s) := nearestPointOnSegment 0 1 2 [p1; p2; point] in
  default Vec3M.ZERO (s !! r).
End NearestPoint.

(** ** Geographic data *)

(** What a property read yields: a number, or [undefined] when the object read
    has no such property (reading [latitude] from a ring, which is an array). *)
Inductive jsval (num : Type) :=
  | Num (n : num)
  | Undefined.
Arguments Num {num} n.
Arguments Undefined {num}.

(** The fields of a [Location] object, in degrees. *)
Record Location (num : Type) := mkLocation {
  latitude : jsval num;
  longitude : jsval num
}.
Arguments mkLocation {num} _ _.
Arguments latitude {num} _.
Arguments longitude {num} _.

(** A [Position] is a [Location] with an altitude. *)
Record Position (num : Type) := mkPosition {
  p_latitude : num;
  p_longitude : num;
  p_altitude : num
}.
Arguments mkPosition {num} _ _ _.
Arguments p_latitude {num} _.
Arguments p_longitude {num} _.
Arguments p_altitude {num} _.

(** A [Position] used where a [Location] is expected. *)
Definition asLocation {num} (p : Position num) : Location num :=
  mkLocation (Num (p_latitude p)) (Num (p_longitude p)).

(** A boundary: a flat sequence of locations, or a sequence of rings. The
    parameter [A] is what stands for a location: its fields when only read,
    a reference into the store of [Location] objects when written. *)
Inductive boundary (A : Type) :=
  | Flat (ls : list A)
  | Ringed (rs : list (list A)).
Arguments Flat {A} ls.
Arguments Ringed {A} rs.

Section Boundary.
Context {A : Type}.

(** [locations.length] *)
Definition blength (locations : boundary A) : nat :=
  match locations with
  | Flat ls => length ls
  | Ringed rs => length rs
  end.

(** The test [locations.length > 0 && locations[0].length > 2] that the
    fragment uses to tell rings from a flat sequence. A [Location] has no
    [length], so the comparison is false on a flat sequence. *)
Definition isRinged (locations : boundary A) : bool :=
  match locations with
  | Flat _ => false
  | Ringed [] => false
  | Ringed (r :: _) => bool_decide (2 < length r)
  end.

(** The rings the nested loops walk. They run only when [isRinged] holds,
    and then every element is a ring. *)
Definition rings (locations : boundary A) : list (list A) :=
  match locations with
  | Flat _ => []
  | Ringed rs => rs
  end.

(** The elements [locations[i]] the flat loops walk: a location, or [None]
    for an element that is a ring. *)
Definition elements (locations : boundary A) : list (option A) :=
  match locations with
  | Flat ls => map Some ls
  | Ringed rs => map (fun _ => None) rs
  end.

(** Every vertex of the boundary, ring after ring. *)
Definition vertices (locations : boundary A) : list A :=
  match locations with
  | Flat ls => ls
  | Ringed rs => concat rs
  end.
End Boundary.

(** [e.latitude] and [e.longitude] for an element [e] of a flat walk. *)
Definition elem_latitude {num} (e : option (Location num)) : jsval num :=
  match e with Some l => latitude l | None => Undefined end.
Definition elem_longitude {num} (e : option (Location num)) : jsval num :=
  match e with Some l => longitude l | None => Undefined end.

(** ** Collaborators *)

(** The globe's coordinate transforms and radius, as the fragment calls them.
    The globe belongs to the caller: its functions are parameters of the
    development. The result argument ([new Vec3(0, 0, 0)],
    [new Position(0, 0, 0)]) is a fresh object at every call site, so each
    call yields a fresh value. The coordinates come from property reads and
    may be [undefined]. *)
Record Globe (num : Type) := mkGlobe {
  computePointFromPosition : jsval num -> jsval num -> num -> Vec3 num;
  computePointFromLocation : jsval num -> jsval num -> Vec3 num;
  computePositionFromPoint : num -> num -> num -> Position num;
  equatorialRadius : num
}.
Arguments mkGlobe {num} _ _ _ _.
Arguments computePointFromPosition {num} _ _ _ _.
Arguments computePointFromLocation {num} _ _ _.
Arguments computePositionFromPoint {num} _ _ _ _.
Arguments equatorialRadius {num} _.

(** The great-circle functions of [Location]: azimuth and distance from a
    centre to a location, and the location reached from a centre along an
    azimuth at a distance (what [greatCircleLocation] stores in the two
    fields of its result argument). [geom/Location.js] is not among the
    sources: the three functions are parameters of the development. *)
Record GreatCircle (num : Type) := mkGreatCircle {
  greatCircleAzimuth : Location num -> Location num -> num;
  greatCircleDistance : Location num -> Location num -> num;
  greatCircleLocation : Location num -> num -> num -> Location num
}.
Arguments mkGreatCircle {num} _ _ _.
Arguments greatCircleAzimuth {num} _ _ _.
Arguments greatCircleDistance {num} _ _ _.
Arguments greatCircleLocation {num} _ _ _ _.

(** ** The fragment: centre and average distance *)

Section Center.
Context {num : Type} `{Number num}.
Local Open Scope js_scope.

(** The body of the loops of [getCenter]: add the vertex's globe point to
    [center] and count it. [center] and the globe point are objects of their
    own, so [center.add(point)] leaves in [center] the sum of the coordinates.
    [count] is kept as a natural number and becomes a number where [center] is
    divided by it. *)
Definition accumulate (globe : Globe num) (lat lon : jsval num)
    (acc : Vec3 num * nat) : Vec3 num * nat :=
  (Vec3M.vadd acc.1 (computePointFromPosition globe lat lon #0), S acc.2).

(** The accumulation of [getCenter]: [center] and [count] when the
    loops are done. *)
Definition getCenter_loops (globe : Globe num) (locations : boundary (Location num))
    : Vec3 num * nat :=
  if isRinged locations then
    foldl (fun acc ring =>
             foldl (fun acc l => accumulate globe (latitude l) (longitude l) acc) acc ring)
          (Vec3M.ZERO, 0%nat) (rings locations)
  else if bool_decide (2 <= blength locations) then
    foldl (fun acc e => accumulate globe (elem_latitude e) (elem_longitude e) acc)
          (Vec3M.ZERO, 0%nat) (elements locations)
  else (Vec3M.ZERO, 0%nat).

(** [BaseSurfaceEditorFragment.prototype.getCenter] *)
Definition getCenter (globe : Globe num) (locations : boundary (Location num))
    : Position num :=
  let '(center, count) := getCenter_loops globe locations in
  let center := Vec3M.vdivide center #(Z.of_nat count) in
  computePositionFromPoint globe (vx center) (vy center) (vz center).

(** [BaseSurfaceEditorFragment.prototype.getAverageDistance] *)
Definition getAverageDistance (globe : Globe num) (center : Location num)
    (locations : list (Location num)) : num :=
  let count := length locations in
  let centerPoint := computePointFromLocation globe (latitude center) (longitude center) in
  let totalDistance :=
    foldl (fun totalDistance l =>
             let distance :=
               Vec3M.vdistanceTo
                 (computePointFromLocation globe (latitude l) (longitude l)) centerPoint in
             totalDistance + distance / #(Z.of_nat count))
          #0 locations in
  if bool_decide (count = 0%nat) then #0 else totalDistance / equatorialRadius globe.
End Center.

(** ** The fragment: inserting a vertex *)

(** What [addNewControlPoint] reads from [this]: whether [this._shape] is a
    [SurfacePolygon], and the globe of [this._worldWindow]. The base fragment
    sets neither field and does not import [SurfacePolygon]; they are taken
    as given by the object the function is called on. *)
Record Fragment (num : Type) := mkFragment {
  shapeIsSurfacePolygon : bool;
  worldWindowGlobe : Globe num
}.
Arguments mkFragment {num} _ _.
Arguments shapeIsSurfacePolygon {num} _.
Arguments worldWindowGlobe {num} _.

(** The three variables the edge scan of [addNewControlPoint] updates. *)
Record Nearest (num : Type) := mkNearest {
  nearestPoint : option (Vec3 num);
  nearestSegmentIndex : nat;
  nearestDistance : num
}.
Arguments mkNearest {num} _ _ _.
Arguments nearestPoint {num} _.
Arguments nearestSegmentIndex {num} _.
Arguments nearestDistance {num} _.

Section AddNewControlPoint.
Context {num : Type} `{Number num}.
Local Open Scope js_scope.

Section Scan.
Variables (this : Fragment num) (globe : Globe num).
Variables (altitude : num) (pointPicked : Vec3 num).
Variable locations : list (Location num).

(** [pointOnEdge] for the segment that ends at index [i]: from
    [locations[i - 1]] to [locations[i]], or to [locations[0]] for the
    closing segment [i == locations.length]. The three points handed to
    [nearestPointOnSegment] are new objects: [pointA], [pointB] and a copy of
    [pointPicked]. *)
Definition pointOnEdge (i : nat) : Vec3 num :=
  let locationA := locations !! (i - 1)%nat in
  let locationB := locations !! (if bool_decide (i = length locations) then 0%nat else i) in
  let pointA :=
    computePointFromPosition globe
      (elem_latitude locationA) (elem_longitude locationA) altitude in
  let pointB :=
    computePointFromPosition (worldWindowGlobe this)
      (elem_latitude locationB) (elem_longitude locationB) altitude in
  nearestPointOnSegment_value pointA pointB pointPicked.

(** [distance] for the segment that ends at index [i]. *)
Definition edgeDistance (i : nat) : num :=
  Vec3M.vdistanceTo (pointOnEdge i) pointPicked.

(** Whether the loop body runs to the end for index [i]: the closing
    segment is skipped when the shape is not a polygon. *)
Definition scanned (i : nat) : bool :=
  negb (negb (shapeIsSurfacePolygon this) && bool_decide (i = length locations)).

(** One iteration of the loop. *)
Definition scanEdge (st : Nearest num) (i : nat) : Nearest num :=
  if scanned i then
    if edgeDistance i <? nearestDistance st
    then mkNearest (Some (pointOnEdge i)) i (edgeDistance i)
    else st
  else st.

(** The loop [for (var i = 1; i <= locations.length; i++)], from
    [nearestPoint = null], [nearestSegmentIndex = 0] and
    [nearestDistance = Number.MAX_VALUE]. *)
Definition scanEdges : Nearest num :=
  foldl scanEdge (mkNearest None 0%nat Number_MAX_VALUE) (seq 1 (length locations)).
End Scan.

(** [BaseSurfaceEditorFragment.prototype.addNewControlPoint]: the contents
    of the [locations] array when the function is done with it. The calls
    that follow the insertion ([removeControlPoints], the assignment to
    [this._shape.boundaries], [updateControlElements]) belong to the concrete
    fragment and leave the array as it is. *)
Definition addNewControlPoint (this : Fragment num) (globe : Globe num)
    (terrainPosition : Position num) (altitude : num)
    (locations : list (Location num)) : list (Location num) :=
  let pointPicked :=
    computePointFromPosition globe
      (Num (p_latitude terrainPosition)) (Num (p_longitude terrainPosition)) altitude in
  let st := scanEdges this globe altitude pointPicked locations in
  match nearestPoint st with
  | Some p =>
      let nearestLocation :=
        asLocation (computePositionFromPoint globe (vx p) (vy p) (vz p)) in
      if bool_decide (nearestSegmentIndex st = length locations)
      then locations ++ [nearestLocation]
      else take (nearestSegmentIndex st) locations
             ++ nearestLocation :: drop (nearestSegmentIndex st) locations
  | None => locations
  end.
End AddNewControlPoint.

(** ** The store of [Location] objects *)

(** [Location] objects are mutable ([rotateLocations] rewrites them in place)
    and a boundary holds references to them. *)
Definition lref := nat.
Abbreviation lstore num := (list (Location num)).

Section LocationStore.
Context {num : Type}.

(** The fields of the object behind a reference. *)
Definition deref (s : lstore num) (a : lref) : Location num :=
  default (mkLocation Undefined Undefined) (s !! a).

(** A boundary of references, read through the store. *)
Definition resolve (s : lstore num) (locations : boundary lref)
    : boundary (Location num) :=
  match locations with
  | Flat ls => Flat (map (deref s) ls)
  | Ringed rs => Ringed (map (map (deref s)) rs)
  end.

(** [new Location(latitude, longitude)] *)
Definition newLocation (lat lon : jsval num) : State (lstore num) lref :=
  fun s => (length s, s ++ [mkLocation lat lon]).

(** [new Location(e.latitude, e.longitude)] for an element [e] of a flat
    walk: the fields of a location, [undefined] twice for a ring. *)
Definition copyElement (e : option lref) : State (lstore num) lref :=
  fun s =>
    newLocation (elem_latitude (deref s <$> e)) (elem_longitude (deref s <$> e)) s.

(** [BaseSurfaceEditorFragment.prototype.deepCopyLocations] *)
Definition deepCopyLocations (locations : boundary lref)
    : State (lstore num) (boundary lref) :=
  if isRinged locations then
    newLocations ← mapM (mapM (fun a => copyElement (Some a))) (rings locations);
    mret (Ringed newLocations)
  else
    newLocations ← mapM copyElement (elements locations);
    mret (Flat newLocations).
End LocationStore.

(** ** The fragment: rotation *)

Section Rotate.
Context {num : Type} `{Number num}.
Local Open Scope js_scope.
Variables (globe : Globe num) (gc : GreatCircle num).

(** The body of the loops of [rotateLocations]: the location behind [a] is
    overwritten with the location at its distance from [center] along its
    azimuth plus [deltaHeading]. *)
Definition rotateLocation (center : Location num) (deltaHeading : num)
    (s : lstore num) (a : lref) : lstore num :=
  let heading := greatCircleAzimuth gc center (deref s a) in
  let distance := greatCircleDistance gc center (deref s a) in
  <[a := greatCircleLocation gc center (heading + deltaHeading) distance]> s.

(** The flat loop hands [greatCircleLocation] the element itself as result
    object; when the element is a ring, the two fields are stored on the
    array, and no [Location] object changes. *)
Definition rotateElement (center : Location num) (deltaHeading : num)
    (s : lstore num) (e : option lref) : lstore num :=
  match e with
  | Some a => rotateLocation center deltaHeading s a
  | None => s
  end.

(** [BaseSurfaceEditorFragment.prototype.rotateLocations] *)
Definition rotateLocations (terrainPosition previousPosition : Position num)
    (locations : boundary lref) : State (lstore num) num :=
  fun s =>
    let center := asLocation (getCenter globe (resolve s locations)) in
    let previousHeading := greatCircleAzimuth gc center (asLocation previousPosition) in
    let deltaHeading :=
      greatCircleAzimuth gc center (asLocation terrainPosition) - previousHeading in
    let s' :=
      if isRinged locations then
        foldl (fun s ring => foldl (rotateLocation center deltaHeading) s ring)
              s (rings locations)
      else if bool_decide (2 <= blength locations) then
        foldl (rotateElement center deltaHeading) s (elements locations)
      else s in
    (deltaHeading, s').
End Rotate.

(** ** The abstract contract *)

(** Modelled from the spec: [util/Logger.js] and
    [error/UnsupportedOperationError.js] are not among the sources.
    [Logger.logMessage] emits a diagnostic at the given level and hands back
    its text, which becomes the message of the error that is thrown. *)
Inductive LogLevel := LEVEL_NONE | LEVEL_SEVERE | LEVEL_WARNING | LEVEL_INFO.

Record Diagnostic := mkDiagnostic {
  d_level : LogLevel;
  d_text : string
}.

Inductive Error :=
  | UnsupportedOperationError (message : string).

(** How a call ends. *)
Inductive Completion (A : Type) :=
  | Returned (a : A)
  | Thrown (e : Error).
Arguments Returned {A} a.
Arguments Thrown {A} e.

(** The state a call of a contract method can observe: the diagnostics emitted
    so far, and everything else that is reachable from its arguments (the
    shape, the arrays of control points and accessories). *)
Record World (Objects : Type) := mkWorld {
  diagnostics : list Diagnostic;
  objects : Objects
}.
Arguments mkWorld {Objects} _ _.
Arguments diagnostics {Objects} _.
Arguments objects {Objects} _.

Definition Op (Objects A : Type) : Type :=
  World Objects -> Completion A * World Objects.

Module Logger.
Definition makeMessage (className functionName message : string) : string :=
  className +:+ "." +:+ functionName +:+ ": " +:+ message.

Definition logMessage {Objects} (level : LogLevel)
    (className functionName message : string) (w : World Objects)
    : string * World Objects :=
  let text := makeMessage className functionName message in
  (text, mkWorld (diagnostics w ++ [mkDiagnostic level text]) (objects w)).
End Logger.

Section AbstractContract.
Context {Objects : Type}.
(** The arguments are never read: their types are left open. *)
Context {Shape GlobeT Renderables Attributes Renderable PositionT : Type}.

(** [throw new UnsupportedOperationError(Logger.logMessage(...))] *)
Definition throwUnsupported {A} (level : LogLevel)
    (className functionName message : string) : Op Objects A :=
  fun w =>
    let '(text, w') := Logger.logMessage level className functionName message w in
    (Thrown (UnsupportedOperationError text), w').

(** [BaseSurfaceEditorFragment.prototype.canHandle] *)
Definition canHandle (shape : Shape) : Op Objects bool :=
  throwUnsupported LEVEL_SEVERE "BaseSurfaceEditorFragment" "canHandle" "abstractInvocation".

(** [BaseSurfaceEditorFragment.prototype.createShadowShape] *)
Definition createShadowShape (shape : Shape) : Op Objects Shape :=
  throwUnsupported LEVEL_SEVERE "BaseSurfaceEditorFragment" "createShadowShape"
    "abstractInvocation".

(** [BaseSurfaceEditorFragment.prototype.getShapeCenter] *)
Definition getShapeCenter (shape : Shape) (globe : GlobeT) : Op Objects PositionT :=
  throwUnsupported LEVEL_SEVERE "BaseSurfaceEditorFragment" "getShapeCenter"
    "abstractInvocation".

(** [BaseSurfaceEditorFragment.prototype.initializeControlElements] *)
Definition initializeControlElements (shape : Shape)
    (controlPoints accessories : Renderables)
    (resizeControlPointAttributes rotateControlPointAttributes
       moveControlPointAttributes : Attributes) : Op Objects unit :=
  throwUnsupported LEVEL_SEVERE "BaseSurfaceEditorFragment" "initializeControlElements"
    "abstractInvocation".

(** [BaseSurfaceEditorFragment.prototype.updateControlElements] *)
Definition updateControlElements (shape : Shape) (globe : GlobeT)
    (controlPoints accessories : Renderables) : Op Objects unit :=
  throwUnsupported LEVEL_SEVERE "BaseSurfaceEditorFragment" "updateControlElements"
    "abstractInvocation".

(** [BaseSurfaceEditorFragment.prototype.reshape] *)
Definition reshape (shape : Shape) (globe : GlobeT) (controlPoint : Renderable)
    (currentPosition previousPosition : PositionT) (secondaryBehavior : bool)
    : Op Objects unit :=
  throwUnsupported LEVEL_SEVERE "BaseSurfaceEditorFragment" "reshape" "abstractInvocation".
End AbstractContract.

(** ** Control points *)

(** [ShapeEditorConstants.js] *)
Module ShapeEditorConstants.
Definition LOCATION : string := "location".
Definition ROTATION : string := "rotation".
Definition WIDTH : string := "width".
Definition HEIGHT : string := "height".
Definition RADIUS : string := "radius".
Definition DRAG : string := "drag".

(** The six purposes. *)
Definition all : list string := [LOCATION; ROTATION; WIDTH; HEIGHT; RADIUS; DRAG].
End ShapeEditorConstants.

(** A value stored in [userProperties]. *)
Inductive UserProperty :=
  | PString (s : string)
  | PNumber (n : nat).

Module WorldWind.
(** Modelled from the spec: the altitude modes are constants of the
    [WorldWind] namespace, which is not among the sources. *)
Definition ABSOLUTE : string := "absolute".
Definition CLAMP_TO_GROUND : string := "clampToGround".
End WorldWind.

(** Modelled from the spec: [shapes/Placemark.js] is not among the sources. A
    placemark is a point marker with a position, attributes, an altitude mode
    and a bag of user properties that is empty when it is built. *)
Record Placemark (num Attributes : Type) := mkPlacemark {
  position : Location num;
  eyeDistanceScaling : bool;
  attributes : Attributes;
  altitudeMode : string;
  userProperties : gmap string UserProperty
}.
Arguments mkPlacemark {num Attributes} _ _ _ _ _.
Arguments position {num Attributes} _.
Arguments eyeDistanceScaling {num Attributes} _.
Arguments attributes {num Attributes} _.
Arguments altitudeMode {num Attributes} _.
Arguments userProperties {num Attributes} _.

Section ControlPoint.
Context {num : Type} `{Number num} {Attributes : Type}.
Local Open Scope js_scope.

(** [new Placemark(position, eyeDistanceScaling, attributes)] *)
Definition newPlacemark (position : Location num) (eyeDistanceScaling : bool)
    (attributes : Attributes) : Placemark num Attributes :=
  mkPlacemark position eyeDistanceScaling attributes WorldWind.ABSOLUTE ∅.

(** [placemark.altitudeMode = mode] *)
Definition setAltitudeMode (mode : string) (p : Placemark num Attributes)
    : Placemark num Attributes :=
  mkPlacemark (position p) (eyeDistanceScaling p) (attributes p) mode (userProperties p).

(** [placemark.userProperties[key] = value] *)
Definition setUserProperty (key : string) (value : UserProperty)
    (p : Placemark num Attributes) : Placemark num Attributes :=
  mkPlacemark (position p) (eyeDistanceScaling p) (attributes p) (altitudeMode p)
    (<[key := value]> (userProperties p)).

(** [BaseSurfaceEditorFragment.prototype.createControlPoint]: the contents of
    the [controlPoints] array after the call. [index] is [None] when the
    argument is [undefined]. *)
Definition createControlPoint (controlPoints : list (Placemark num Attributes))
    (attrs : Attributes) (purpose : string) (index : option nat)
    : list (Placemark num Attributes) :=
  let controlPoint := newPlacemark (mkLocation (Num #0) (Num #0)) false attrs in
  let controlPoint := setAltitudeMode WorldWind.CLAMP_TO_GROUND controlPoint in
  let controlPoint := setUserProperty "purpose" (PString purpose) controlPoint in
  let controlPoint :=
    match index with
    | Some i => setUserProperty "index" (PNumber i) controlPoint
    | None => controlPoint
    end in
  controlPoints ++ [controlPoint].
End ControlPoint.

(** ** The fragment: moving a control point *)

Section Move.
Context {num : Type} `{Number num}.
Local Open Scope js_scope.

(** [globe.computePointFromPosition(lat, lon, alt, new Vec3(0, 0, 0))]: a new
    vector, which the globe fills in and returns. *)
Definition newGlobePoint (globe : Globe num) (lat lon : jsval num) (alt : num)
    : VM num vref :=
  result ← Vec3M.new #0 #0 #0;
  _ ← Vec3M.wr result (computePointFromPosition globe lat lon alt);
  mret result.

(** [BaseSurfaceEditorFragment.prototype.computeControlPointDelta] *)
Definition computeControlPointDelta (globe : Globe num)
    (positionA positionB : Position num) : VM num vref :=
  pointA ← newGlobePoint globe
              (Num (p_latitude positionA)) (Num (p_longitude positionA)) #0;
  pointB ← newGlobePoint globe
              (Num (p_latitude positionB)) (Num (p_longitude positionB)) #0;
  Vec3M.subtract pointA pointB.

(** [BaseSurfaceEditorFragment.prototype.moveLocation]: the position that the
    globe stores in [result] and that the function returns. *)
Definition moveLocation {Attributes : Type} (globe : Globe num)
    (controlPoint : Placemark num Attributes)
    (terrainPosition previousPosition : Position num) : VM num (Position num) :=
  delta ← computeControlPointDelta globe previousPosition terrainPosition;
  markerPoint ← newGlobePoint globe
                   (latitude (position controlPoint))
                   (longitude (position controlPoint)) #0;
  _ ← Vec3M.add markerPoint delta;
  marker ← Vec3M.rd markerPoint;
  mret (computePositionFromPoint globe (vx marker) (vy marker) (vz marker)).
End Move.

(** ** The fragment: the rotation accessory *)

(** Modelled from the spec: [shapes/ShapeAttributes.js] and [shapes/Path.js]
    are not among the sources. Of the attributes of a shape the fragment
    sets the outline colour and the outline width; the others, which
    [new ShapeAttributes(null)] sets to their defaults, are kept as they
    come. Of a path it sets the positions, the attributes, the altitude mode
    and whether the path follows the terrain. *)
Record ShapeAttributes (num Color Rest : Type) := mkShapeAttributes {
  outlineColor : Color;
  outlineWidth : num;
  otherAttributes : Rest
}.
Arguments mkShapeAttributes {num Color Rest} _ _ _.
Arguments outlineColor {num Color Rest} _.
Arguments outlineWidth {num Color Rest} _.
Arguments otherAttributes {num Color Rest} _.

Record Path (num Color Rest : Type) := mkPath {
  positions : list (Position num);
  pathAttributes : ShapeAttributes num Color Rest;
  pathAltitudeMode : string;
  followTerrain : bool
}.
Arguments mkPath {num Color Rest} _ _ _ _.
Arguments positions {num Color Rest} _.
Arguments pathAttributes {num Color Rest} _.
Arguments pathAltitudeMode {num Color Rest} _.
Arguments followTerrain {num Color Rest} _.

Section RotationAccessory.
Context {num : Type} `{Number num} {Attributes Color Rest : Type}.
Local Open Scope js_scope.

(** [attributes.imageColor], and the attributes [new ShapeAttributes(null)]
    yields. *)
Variable imageColor : Attributes -> Color.
Variable defaultShapeAttributes : ShapeAttributes num Color Rest.

(** [shapeAttributes.outlineColor = color] *)
Definition setOutlineColor (color : Color) (a : ShapeAttributes num Color Rest)
    : ShapeAttributes num Color Rest :=
  mkShapeAttributes color (outlineWidth a) (otherAttributes a).

(** [shapeAttributes.outlineWidth = width] *)
Definition setOutlineWidth (width : num) (a : ShapeAttributes num Color Rest)
    : ShapeAttributes num Color Rest :=
  mkShapeAttributes (outlineColor a) width (otherAttributes a).

(** [path.altitudeMode = mode] *)
Definition setPathAltitudeMode (mode : string) (path : Path num Color Rest)
    : Path num Color Rest :=
  mkPath (positions path) (pathAttributes path) mode (followTerrain path).

(** [path.followTerrain = follow] *)
Definition setFollowTerrain (follow : bool) (path : Path num Color Rest)
    : Path num Color Rest :=
  mkPath (positions path) (pathAttributes path) (pathAltitudeMode path) follow.

(** [path.positions = ps] *)
Definition setPositions (ps : list (Position num)) (path : Path num Color Rest)
    : Path num Color Rest :=
  mkPath ps (pathAttributes path) (pathAltitudeMode path) (followTerrain path).

(** [new Path(positions, attributes)] *)
Definition newPath (ps : list (Position num))
    (attributes : ShapeAttributes num Color Rest) : Path num Color Rest :=
  mkPath ps attributes WorldWind.ABSOLUTE false.

(** [BaseSurfaceEditorFragment.prototype.createRotationAccessory]: the
    contents of the [accessories] array after the call. *)
Definition createRotationAccessory (accessories : list (Path num Color Rest))
    (attributes : Attributes) : list (Path num Color Rest) :=
  let positions := [] in
  let positions := positions ++ [mkPosition #0 #0 #0] in
  let positions := positions ++ [mkPosition #0 #0 #0] in
  let shapeAttributes := defaultShapeAttributes in
  let shapeAttributes := setOutlineColor (imageColor attributes) shapeAttributes in
  let shapeAttributes := setOutlineWidth #2 shapeAttributes in
  let rotationLine := newPath positions shapeAttributes in
  let rotationLine := setPathAltitudeMode WorldWind.CLAMP_TO_GROUND rotationLine in
  let rotationLine := setFollowTerrain true rotationLine in
  accessories ++ [rotationLine].

(** [BaseSurfaceEditorFragment.prototype.updateRotationAccessory]: the
    contents of the [accessories] array after the call, or [None] when the
    call throws: [accessories[0]] is [undefined] on an empty array, and
    setting a property of [undefined] is a [TypeError]. *)
Definition updateRotationAccessory (centerPosition controlPointPosition : Position num)
    (accessories : list (Path num Color Rest)) : option (list (Path num Color Rest)) :=
  match accessories with
  | [] => None
  | first :: others =>
      Some (setPositions [centerPosition; controlPointPosition] first :: others)
  end.
End RotationAccessory.

(** * Vocabulary of the properties *)

Section CenterVocabulary.
Context {num : Type} `{Number num}.
Local Open Scope js_scope.

(** The globe point of a location, at zero altitude. *)
Definition pointOf (globe : Globe num) (l : Location num) : Vec3 num :=
  computePointFromPosition globe (latitude l) (longitude l) #0.

(** The position of a cartesian point. *)
Definition positionOf (globe : Globe num) (p : Vec3 num) : Position num :=
  computePositionFromPoint globe (vx p) (vy p) (vz p).

(** The average of a list of cartesian points: their sum, taken from the
    zero vector in list order, divided by their number. *)
Definition centroid (points : list (Vec3 num)) : Vec3 num :=
  Vec3M.vdivide (foldl Vec3M.vadd Vec3M.ZERO points) #(Z.of_nat (length points)).

(** The cartesian distance from a location's globe point to the centre's. *)
Definition distanceToCenter (globe : Globe num) (center l : Location num) : num :=
  Vec3M.vdistanceTo
    (computePointFromLocation globe (latitude l) (longitude l))
    (computePointFromLocation globe (latitude center) (longitude center)).
End CenterVocabulary.

Section StoreVocabulary.
Context {num : Type} `{Number num}.
Local Open Scope js_scope.

(** The globe point of a position, at zero altitude: what
    [computeControlPointDelta] and [moveLocation] compute from a position. *)
Definition surfacePoint (globe : Globe num) (p : Position num) : Vec3 num :=
  computePointFromPosition globe (Num (p_latitude p)) (Num (p_longitude p)) #0.

(** The contents of a [Vec3] object: its three coordinates. *)
Definition vderef (s : vstore num) (r : vref) : Vec3 num :=
  default Vec3M.ZERO (s !! r).
End StoreVocabulary.

(** The boundaries that the fragment's walks take for what they are: a flat
    sequence of at least two locations, or rings the first of which has more
    than two vertices. *)
Definition centerDefined {A : Type} (locations : boundary A) : Prop :=
  match locations with
  | Flat ls => 2 <= length ls
  | Ringed _ => isRinged locations = true
  end.

(** The sum of a list of reals. *)
Definition Rsum (l : list R) : R := foldr Rplus 0%R l.

(** A globe for running the code: a chart whose cartesian coordinates are
    latitude, longitude and altitude; a missing coordinate is not a number. *)
Definition numOf (v : jsval float) : float :=
  match v with Num n => n | Undefined => nan end.

Definition chartGlobe : Globe float :=
  mkGlobe (fun lat lon alt => mkVec3 (numOf lat) (numOf lon) alt)
          (fun lat lon => mkVec3 (numOf lat) (numOf lon) 0%float)
          (fun x y z => mkPosition x y z)
          1%float.

(** The wrap policy of [normalizedHeading], on a sum in degrees. *)
Definition wrapDegrees (t : R) : R :=
  let t' := if Rltb 360 (Rabs t) then Rmod t 360 else t in
  if Rleb 0 t' then t' else (t' + 360)%R.




(** Consecutive references from [start], cut into rings of the given sizes. *)
Fixpoint chunks (start : nat) (sizes : list nat) : list (list nat) :=
  match sizes with
  | [] => []
  | n :: sizes => seq start n :: chunks (start + n) sizes
  end.

(** The laws of [<] and [<=] that the edge scan relies on. Both number
    instances have them; on binary64 they hold with NaN included, which is
    below nothing and above nothing. *)
Class NumberOrder (num : Type) `{Number num} : Prop := {
  nlt_irrefl : forall x, nlt x x = false;
  nlt_trans : forall x y z, nlt x y = true -> nlt y z = true -> nlt x z = true;
  nle_nlt_trans : forall x y z, nle x y = true -> nlt y z = true -> nlt x z = true
}.

Section ScanVocabulary.
Context {num : Type} `{Number num}.
Local Open Scope js_scope.
Variables (this : Fragment num) (globe : Globe num).
Variables (altitude : num) (pointPicked : Vec3 num).
Variable locations : list (Location num).

Local Abbreviation d := (edgeDistance this globe altitude pointPicked locations).
Local Abbreviation edgePoint := (pointOnEdge this globe altitude pointPicked locations).

(** What the scan has established once the segments up to index [m] are
    done: either no scanned segment so far is nearer than
    [Number.MAX_VALUE] and the three variables are as they started, or they
    hold the first of the nearest scanned segments so far. *)
Definition scanInvariant (m : nat) (st : Nearest num) : Prop :=
  (st = mkNearest None 0%nat Number_MAX_VALUE
   /\ forall j, 1 <= j <= m -> scanned this locations j = true ->
        (d j <? Number_MAX_VALUE) = false)
  \/ (exists k, 1 <= k <= m /\ scanned this locations k = true
      /\ st = mkNearest (Some (edgePoint k)) k (d k)
      /\ (d k <? Number_MAX_VALUE) = true
      /\ (forall j, 1 <= j <= m -> scanned this locations j = true ->
            (d j <? d k) = false)
      /\ (forall j, 1 <= j < k -> scanned this locations j = true ->
            (d j <=? d k) = false)).
End ScanVocabulary.

Section ScanChoice.
Context {num : Type} `{Number num}.
Variables (this : Fragment num) (globe : Globe num).
Variables (altitude : num) (pointPicked : Vec3 num).
Variable locations : list (Location num).

End ScanChoice.

(** A call that ends by throwing an unsupported-operation error whose message
    is the text of a severe diagnostic, emitted by the call and the last one
    in the log, and that changes nothing else. *)
Definition throwsUnsupported {Objects A : Type} (w : World Objects)
    (r : Completion A * World Objects) : Prop :=
  exists text,
    r.1 = Thrown (UnsupportedOperationError text)
    /\ diagnostics r.2 = diagnostics w ++ [mkDiagnostic LEVEL_SEVERE text]
    /\ objects r.2 = objects w.

(** ** Data for running the code *)

(** A store of five locations: the corners of a square, and its centre. *)
Definition squareStore : lstore float :=
  [mkLocation (Num 0) (Num 0); mkLocation (Num 0) (Num 2);
   mkLocation (Num 2) (Num 2); mkLocation (Num 2) (Num 0);
   mkLocation (Num 1) (Num 1)]%float.

(** The corners of the square as a flat boundary of locations, and fragments
    editing a polygon and a path on the chart. *)
Definition square : list (Location float) :=
  [mkLocation (Num 0) (Num 0); mkLocation (Num 0) (Num 2);
   mkLocation (Num 2) (Num 2); mkLocation (Num 2) (Num 0)]%float.

Definition polygonFragment : Fragment float := mkFragment true chartGlobe.

(** A great-circle collaborator for running the code in exact arithmetic: a
    polar chart, on which the latitude of a location is its distance from the
    pole and its longitude its azimuth. *)
Definition numOfR (v : jsval R) : R :=
  match v with Num n => n | Undefined => 0%R end.


Definition chartGlobeR : Globe R :=
  mkGlobe (fun lat lon alt => mkVec3 (numOfR lat) (numOfR lon) alt)
          (fun lat lon => mkVec3 (numOfR lat) (numOfR lon) 0%R)
          (fun x y z => mkPosition x y z)
          1%R.


(** Four [Vec3] objects in binary64: a bystander, the end of a segment, a
    picked point, and the start of the segment. *)
Definition fourPoints : vstore float :=
  [mkVec3 9 9 9; mkVec3 5 0 0; mkVec3 3 4 0; mkVec3 1 0 0]%float.


(** * Properties *)

(** ** Order on the two number instances *)

Ltac SF_cases a b c :=
  destruct a as [?s|?s| |?s ?m ?e], b as [?s|?s| |?s ?m ?e], c as [?s|?s| |?s ?m ?e];
  repeat match goal with s : bool |- _ => destruct s end;
  simpl; try discriminate; try reflexivity;
  change (Pos.compare_cont Eq) with Pos.compare;
  repeat match goal with
    | |- context [Z.compare ?x ?y] => destruct (Z.compare_spec x y)
    | H : context [Z.compare ?x ?y] |- _ => destruct (Z.compare_spec x y)
    end;
  try lia; try discriminate; try reflexivity;
  repeat match goal with
    | |- context [Pos.compare ?x ?y] => destruct (Pos.compare_spec x y)
    | H : context [Pos.compare ?x ?y] |- _ => destruct (Pos.compare_spec x y)
    end;
  simpl; try lia; try discriminate; try reflexivity.

Lemma SFltb_irrefl a : SFltb a a = false.
Proof.
  unfold SFltb. destruct a as [s|s| |s m e]; try destruct s; simpl; try reflexivity;
    rewrite Z.compare_refl; change (Pos.compare_cont Eq) with Pos.compare;
    by rewrite Pos.compare_refl.
Qed.

Lemma SFltb_trans a b c :
  SFltb a b = true -> SFltb b c = true -> SFltb a c = true.
Proof. unfold SFltb. intros Hab Hbc. revert Hab Hbc. SF_cases a b c. Qed.

Lemma SFleb_ltb_trans a b c :
  SFleb a b = true -> SFltb b c = true -> SFltb a c = true.
Proof. unfold SFltb, SFleb. intros Hab Hbc. revert Hab Hbc. SF_cases a b c. Qed.

#[export] Instance float_NumberOrder : NumberOrder float.
Proof.
  split; simpl; intros *.
  - rewrite ltb_spec. apply SFltb_irrefl.
  - rewrite !ltb_spec. apply SFltb_trans.
  - rewrite leb_spec, !ltb_spec. apply SFleb_ltb_trans.
Qed.

#[export] Instance R_NumberOrder : NumberOrder R.
Proof.
  split; simpl; unfold Rltb, Rleb; intros *;
    repeat match goal with |- context [Rlt_dec ?x ?y] => destruct (Rlt_dec x y) end;
    repeat match goal with |- context [Rle_dec ?x ?y] => destruct (Rle_dec x y) end;
    try done; lra.
Qed.

(** ** Heading normalisation *)

Section HeadingFacts.
Local Open Scope R_scope.

Lemma Rltb_true x y : Rltb x y = true <-> x < y.
Proof. unfold Rltb. destruct (Rlt_dec x y); split; intros; try done. Qed.

Lemma Rltb_false x y : Rltb x y = false <-> y <= x.
Proof. unfold Rltb. destruct (Rlt_dec x y); split; intros; try done; lra. Qed.

Lemma Rleb_true x y : Rleb x y = true <-> x <= y.
Proof. unfold Rleb. destruct (Rle_dec x y); split; intros; try done. Qed.

Lemma Rleb_false x y : Rleb x y = false <-> y < x.
Proof. unfold Rleb. destruct (Rle_dec x y); split; intros; try done; lra. Qed.

(** Truncation yields the integer between zero and its argument that is
    nearest the argument. *)
Lemma Rtrunc_spec x :
  exists k : Z, Rtrunc x = IZR k
    /\ (0 <= x -> IZR k <= x < IZR k + 1)
    /\ (x < 0 -> x <= IZR k < x + 1).
Proof.
  unfold Rtrunc. destruct (Rle_dec 0 x) as [Hx|Hx].
  - exists (Int_part x). split; [done|]. split; [|lra].
    intros _. destruct (base_Int_part x). lra.
  - exists (- Int_part (- x))%Z. rewrite opp_IZR. split; [done|]. split; [lra|].
    intros _. destruct (base_Int_part (- x)). lra.
Qed.

Lemma Rmod_spec x y :
  0 < y ->
  exists k : Z, Rmod x y = x - y * IZR k
    /\ (0 <= x -> 0 <= Rmod x y < y)
    /\ (x < 0 -> - y < Rmod x y <= 0).
Proof.
  intros Hy. unfold Rmod.
  destruct (Rtrunc_spec (x / y)) as (k & -> & Hpos & Hneg).
  exists k. split; [done|].
  assert (Hx : x = y * (x / y)) by (field; lra).
  set (q := x / y) in *. clearbody q. subst x.
  replace (y * q - y * IZR k) with (y * (q - IZR k)) by ring.
  split; intros Hs.
  - assert (0 <= q) by nra. specialize (Hpos H). nra.
  - assert (q < 0) by nra. specialize (Hneg H). nra.
Qed.

Lemma Rmod_scale x y c : 0 < c -> 0 < y -> Rmod (x * c) (y * c) = Rmod x y * c.
Proof.
  intros Hc Hy. unfold Rmod.
  replace (x * c / (y * c)) with (x / y) by (field; lra). ring.
Qed.

(** [normalizedHeading] is its wrap policy applied to the sum in degrees. *)
Lemma normalizedHeading_wrapDegrees (h d : R) :
  normalizedHeading h d = wrapDegrees (h + d).
Proof.
  unfold normalizedHeading, wrapDegrees,
    Angle.TWO_PI, Angle.DEGREES_TO_RADIANS, Angle.RADIANS_TO_DEGREES.
  cbn.
  pose proof PI_RGT_0 as HPI.
  set (t := h + d). set (c := PI / 180).
  assert (Hc : 0 < c) by (unfold c; lra).
  replace (h * c + d * c) with (t * c) by (unfold t; ring).
  replace (2 * PI) with (360 * c) by (unfold c; field).
  assert (Hback : forall x, 180 / PI * (x * c) = x) by (intros x; unfold c; field; lra).
  assert (Hcond : Rltb (360 * c) (Rabs (t * c)) = Rltb 360 (Rabs t)).
  { rewrite Rabs_mult, (Rabs_pos_eq c) by lra.
    destruct (Rltb 360 (Rabs t)) eqn:E.
    - apply Rltb_true in E. apply Rltb_true. nra.
    - apply Rltb_false in E. apply Rltb_false. nra. }
  rewrite Hcond.
  set (t' := if Rltb 360 (Rabs t) then Rmod t 360 else t).
  assert (Ht' : (if Rltb 360 (Rabs t) then Rmod (t * c) (360 * c) else t * c) = t' * c).
  { unfold t'. destruct (Rltb 360 (Rabs t)); [|done]. apply Rmod_scale; lra. }
  rewrite Ht'.
  assert (Hsign : Rleb 0 (t' * c) = Rleb 0 t').
  { destruct (Rleb 0 t') eqn:E.
    - apply Rleb_true in E. apply Rleb_true. nra.
    - apply Rleb_false in E. apply Rleb_false. nra. }
  rewrite Hsign. destruct (Rleb 0 t').
  - apply Hback.
  - replace (t' * c + 360 * c) with ((t' + 360) * c) by ring. apply Hback.
Qed.

Lemma wrapDegrees_spec (t : R) :
  0 <= wrapDegrees t <= 360
  /\ (wrapDegrees t = 360 <-> t = 360)
  /\ exists k : Z, wrapDegrees t = t + 360 * IZR k.
Proof.
  unfold wrapDegrees.
  destruct (Rltb 360 (Rabs t)) eqn:Habs.
  - apply Rltb_true in Habs.
    destruct (Rmod_spec t 360) as (k & Hk & Hpos & Hneg); [lra|].
    destruct (Rle_or_lt 0 t) as [Ht|Ht].
    + specialize (Hpos Ht). rewrite Rabs_pos_eq in Habs by done.
      replace (Rleb 0 (Rmod t 360)) with true by (symmetry; apply Rleb_true; lra).
      split; [lra|]. split; [split; intros; lra|].
      exists (- k)%Z. rewrite opp_IZR. lra.
    + specialize (Hneg Ht). rewrite Rabs_left in Habs by done.
      destruct (Rleb 0 (Rmod t 360)) eqn:Hs.
      * apply Rleb_true in Hs. split; [lra|]. split; [split; intros; lra|].
        exists (- k)%Z. rewrite opp_IZR. lra.
      * apply Rleb_false in Hs. split; [lra|]. split; [split; intros; lra|].
        exists (1 - k)%Z. rewrite minus_IZR. lra.
  - apply Rltb_false in Habs.
    destruct (Rleb 0 t) eqn:Hs.
    + apply Rleb_true in Hs. rewrite Rabs_pos_eq in Habs by done.
      split; [lra|]. split; [done|]. exists 0%Z. lra.
    + apply Rleb_false in Hs. rewrite Rabs_left in Habs by done.
      split; [lra|]. split; [split; intros; lra|]. exists 1%Z. lra.
Qed.

Lemma wrapDegrees_370 : wrapDegrees 370 = 10.
Proof.
  destruct (wrapDegrees_spec 370) as (Hr & H360 & k & Hk).
  assert (wrapDegrees 370 <> 360) by (intros E; apply H360 in E; lra).
  assert (Hlt : (-2 < k < 0)%Z).
  { split; apply lt_IZR; lra. }
  assert (k = (-1)%Z) as -> by lia. lra.
Qed.

Lemma wrapDegrees_m10 : wrapDegrees (-10) = 350.
Proof.
  destruct (wrapDegrees_spec (-10)) as (Hr & H360 & k & Hk).
  assert (wrapDegrees (-10) <> 360) by (intros E; apply H360 in E; lra).
  assert (Hlt : (0 < k < 2)%Z).
  { split; apply lt_IZR; lra. }
  assert (k = 1%Z) as -> by lia. lra.
Qed.

End HeadingFacts.

Section HeadingClaims.
Local Open Scope R_scope.

(** C2, as the code has it, in exact arithmetic: [normalizedHeading] adds the
    two angles in radians, reduces the sum modulo 2π once when its absolute
    value exceeds 2π, adds 2π when the result is negative, and converts back
    to degrees. The result is the sum of the two angles plus a whole number of
    turns, and lies between 0 and 360, both included: it is 360 exactly when
    the two angles add up to 360. [normalizedHeading 350 20] is 10 and
    [normalizedHeading 0 (-10)] is 350. *)
Theorem normalizedHeading_range (h d : R) :
  normalizedHeading h d = wrapDegrees (h + d)
  /\ 0 <= normalizedHeading h d <= 360
  /\ (normalizedHeading h d = 360 <-> h + d = 360)
  /\ (exists k : Z, normalizedHeading h d = h + d + 360 * IZR k)
  /\ (exists k : Z, normalizedHeading h 0 = h + 360 * IZR k)
  /\ normalizedHeading 350 20 = 10
  /\ normalizedHeading 0 (-10) = 350.
Proof.
  rewrite !normalizedHeading_wrapDegrees.
  destruct (wrapDegrees_spec (h + d)) as (Hr & H360 & Hk).
  repeat split; try tauto.
  - destruct (wrapDegrees_spec (h + 0)) as (_ & _ & k & Hk0).
    exists k. rewrite Hk0. ring.
  - replace (350 + 20) with 370 by lra. apply wrapDegrees_370.
  - replace (0 + -10) with (-10) by lra. apply wrapDegrees_m10.
Qed.

(** C2 as stated fails: the result is not always below 360. A sum of exactly
    360 degrees does not exceed 2π, so it is not reduced, and 360 comes back,
    in binary64 as in exact arithmetic. *)
Lemma normalizedHeading_reaches_360 :
  normalizedHeading 360%float 0%float = 360%float
  /\ normalizedHeading 350%float 10%float = 360%float
  /\ PrimFloat.ltb (normalizedHeading 360%float 0%float) 360%float = false
  /\ normalizedHeading 360 0 = 360
  /\ ~ (normalizedHeading 360 0 < 360).
Proof.
  split; [reflexivity|]. split; [reflexivity|]. split; [reflexivity|].
  assert (E : normalizedHeading 360 0 = 360).
  { rewrite normalizedHeading_wrapDegrees. apply wrapDegrees_spec. lra. }
  split; [exact E|]. rewrite E. lra.
Qed.

(** In binary64 the two conversions round: the heading of 350 turned by 20
    comes out one hundred-trillionth of a degree short of 10. *)
Remark normalizedHeading_350_20_binary64 :
  normalizedHeading 350%float 20%float = 0x1.3fffffffffffap+3%float
  /\ normalizedHeading 0%float (-10)%float = 350%float.
Proof. split; reflexivity. Qed.
End HeadingClaims.

(** ** Centre *)

Section CenterFacts.
Context {num : Type} `{Number num}.

Lemma accumulate_foldl (globe : Globe num) (ls : list (Location num)) acc :
  foldl (fun acc l => accumulate globe (latitude l) (longitude l) acc) acc ls
  = (foldl Vec3M.vadd acc.1 (map (pointOf globe) ls), (acc.2 + length ls)%nat).
Proof.
  revert acc. induction ls as [|l ls IH]; intros [c n]; simpl.
  - by rewrite Nat.add_0_r.
  - rewrite IH. simpl. f_equal. lia.
Qed.

Lemma accumulate_rings (globe : Globe num) (rs : list (list (Location num))) acc :
  foldl (fun acc ring =>
           foldl (fun acc l => accumulate globe (latitude l) (longitude l) acc) acc ring)
        acc rs
  = (foldl Vec3M.vadd acc.1 (map (pointOf globe) (concat rs)),
     (acc.2 + length (concat rs))%nat).
Proof.
  revert acc. induction rs as [|r rs IH]; intros [c n]; simpl.
  - by rewrite Nat.add_0_r.
  - rewrite accumulate_foldl, IH. simpl.
    rewrite map_app, foldl_app, length_app. f_equal. lia.
Qed.

Lemma accumulate_elements (globe : Globe num) (ls : list (Location num)) acc :
  foldl (fun acc e => accumulate globe (elem_latitude e) (elem_longitude e) acc)
        acc (map Some ls)
  = (foldl Vec3M.vadd acc.1 (map (pointOf globe) ls), (acc.2 + length ls)%nat).
Proof.
  revert acc. induction ls as [|l ls IH]; intros [c n]; simpl.
  - by rewrite Nat.add_0_r.
  - rewrite IH. simpl. f_equal. lia.
Qed.

(** What the loops of [getCenter] leave in [center] and [count] on a
    boundary they take for what it is. *)
Lemma getCenter_loops_defined (globe : Globe num) (locations : boundary (Location num)) :
  centerDefined locations ->
  getCenter_loops globe locations
  = (foldl Vec3M.vadd Vec3M.ZERO (map (pointOf globe) (vertices locations)),
     length (vertices locations)).
Proof.
  intros Hdef. unfold getCenter_loops.
  destruct locations as [ls|rs]; simpl in *.
  - rewrite bool_decide_true by done. by rewrite accumulate_elements.
  - destruct rs as [|r rs]; [done|]. rewrite Hdef.
    by rewrite (accumulate_rings globe (r :: rs)).
Qed.
End CenterFacts.

(** C5, as the code has it: on a flat boundary of at least two locations, and
    on rings the first of which has more than two vertices, [getCenter] is the
    position of the average of the globe points of all vertices, those of
    every ring included. *)
Theorem getCenter_centroid {num : Type} `{Number num}
    (globe : Globe num) (locations : boundary (Location num)) :
  centerDefined locations ->
  getCenter globe locations
  = positionOf globe (centroid (map (pointOf globe) (vertices locations))).
Proof.
  intros Hdef. unfold getCenter. rewrite getCenter_loops_defined by done.
  unfold positionOf, centroid. by rewrite length_map.
Qed.

(** The centre of the four corners of a square, and of a square with a
    square hole whose vertices pull the centre away from the square's. *)
Lemma getCenter_centroid_witness :
  let square :=
    [mkLocation (Num 0) (Num 0); mkLocation (Num 0) (Num 2);
     mkLocation (Num 2) (Num 2); mkLocation (Num 2) (Num 0)]%float in
  let hole :=
    [mkLocation (Num 1) (Num 1); mkLocation (Num 1) (Num 2);
     mkLocation (Num 2) (Num 2); mkLocation (Num 2) (Num 1)]%float in
  (centerDefined (Flat square)
   /\ getCenter chartGlobe (Flat square) = mkPosition 1 1 0)%float
  /\ (centerDefined (Ringed [square; hole])
      /\ getCenter chartGlobe (Ringed [square; hole]) = mkPosition 1.25 1.25 0
      /\ getCenter chartGlobe (Ringed [square]) = mkPosition 1 1 0)%float.
Proof.
  intros square hole. split; [split|split; [|split]].
  - simpl. lia.
  - rewrite (getCenter_centroid chartGlobe (Flat square)); [reflexivity | simpl; lia].
  - reflexivity.
  - rewrite (getCenter_centroid chartGlobe (Ringed [square; hole])); reflexivity.
  - reflexivity.
Defined.

(** C5 as stated fails on a non-empty boundary: a flat boundary of one
    location contributes no vertex, and the centre is not that location. *)
Lemma getCenter_single_location_lost :
  let l := mkLocation (Num 1%float) (Num 2%float) in
  getCenter chartGlobe (Flat [l]) = mkPosition nan nan nan
  /\ positionOf chartGlobe (centroid (map (pointOf chartGlobe) [l]))
     = mkPosition 1%float 2%float 0%float
  /\ getCenter chartGlobe (Flat [l])
     <> positionOf chartGlobe (centroid (map (pointOf chartGlobe) [l])).
Proof.
  intros l. split; [reflexivity|]. split; [reflexivity|].
  intros Heq. apply (f_equal (fun p => PrimFloat.is_nan (p_latitude p))) in Heq.
  vm_compute in Heq. discriminate Heq.
Qed.

(** C10: on a flat boundary of exactly one location, as on an empty one, the
    loops of [getCenter] run for no vertex: [count] is zero and [center] the
    zero vector when [center.divide(count)] is evaluated, and the quotient is
    what is turned into a position; in binary64 its three coordinates are not
    numbers. *)
Theorem getCenter_divides_by_zero :
  (forall (num : Type) (HN : Number num) (globe : Globe num) (l : Location num),
      getCenter_loops globe (Flat [l]) = (Vec3M.ZERO, 0%nat)
      /\ getCenter_loops globe (Flat []) = (Vec3M.ZERO, 0%nat)
      /\ getCenter_loops globe (Ringed []) = (Vec3M.ZERO, 0%nat)
      /\ getCenter globe (Flat [l])
         = positionOf globe (Vec3M.vdivide Vec3M.ZERO (ofZ 0)))
  /\ (forall (globe : Globe float) (l : Location float),
      getCenter globe (Flat [l]) = computePositionFromPoint globe nan nan nan).
Proof.
  split.
  - intros num HN globe l. repeat split.
  - intros globe l. reflexivity.
Qed.

(** ** Average distance *)

Section AverageDistance.
Local Open Scope R_scope.

Lemma totalDistance_foldl (f : Location R -> R) (c t0 : R) (ls : list (Location R)) :
  foldl (fun t l => t + f l / c) t0 ls = t0 + Rsum (map f ls) / c.
Proof.
  revert t0. induction ls as [|l ls IH]; intros t0; simpl.
  - unfold Rdiv. ring.
  - rewrite IH. unfold Rsum. simpl. unfold Rdiv. ring.
Qed.

(** C6: on an empty list [getAverageDistance] is 0, whatever the number
    instance: the guard on [count] answers before any quotient is used. On a
    list that is not empty it is, in exact arithmetic, the mean of the
    cartesian distances from the locations' globe points to the centre's,
    divided by the equatorial radius. *)
Theorem getAverageDistance_mean :
  (forall (num : Type) (HN : Number num) (globe : Globe num) (center : Location num),
      getAverageDistance globe center [] = ofZ 0)
  /\ (forall (globe : Globe R) (center l : Location R) (ls : list (Location R)),
      getAverageDistance globe center (l :: ls)
      = Rsum (map (distanceToCenter globe center) (l :: ls))
        / INR (length (l :: ls)) / equatorialRadius globe).
Proof.
  split; [reflexivity|].
  intros globe center l ls. unfold getAverageDistance.
  rewrite bool_decide_false by done.
  change (foldl (fun t l0 => t + distanceToCenter globe center l0
                              / IZR (Z.of_nat (length (l :: ls)))) 0 (l :: ls)
          / equatorialRadius globe = Rsum (map (distanceToCenter globe center) (l :: ls))
        / INR (length (l :: ls)) / equatorialRadius globe).
  rewrite totalDistance_foldl, <- INR_IZR_INZ. by rewrite Rplus_0_l.
Qed.
End AverageDistance.

(** ** Deep copy *)

Section DeepCopy.
Context {num : Type}.
Implicit Types (s : lstore num) (ls : list lref) (rs : list (list lref)).









Lemma concat_chunks start sizes :
  concat (chunks start sizes) = seq start (foldr plus 0 sizes).
Proof.
  revert start. induction sizes as [|n sizes IH]; intros start; simpl; [done|].
  by rewrite IH, seq_app.
Qed.


Lemma length_concat rs : length (concat rs) = foldr plus 0 (map length rs).
Proof. induction rs as [|r rs IH]; simpl; [done|]. by rewrite length_app, IH. Qed.



End DeepCopy.




(** ** Inserting a vertex *)

Section ScanFacts.
Context {num : Type} `{NumberOrder num}.
Local Open Scope js_scope.
Variables (this : Fragment num) (globe : Globe num).
Variables (altitude : num) (pointPicked : Vec3 num).
Variable locations : list (Location num).

Local Abbreviation d := (edgeDistance this globe altitude pointPicked locations).
Local Abbreviation sc := (scanned this locations).
Local Abbreviation edgePoint := (pointOnEdge this globe altitude pointPicked locations).
Local Abbreviation inv := (scanInvariant this globe altitude pointPicked locations).



End ScanFacts.



(** The square of the witness, run: a point picked next to the middle of the
    second edge becomes the vertex after that edge's first end point; a point
    picked next to the closing edge is appended when the shape is a polygon. *)
Lemma addNewControlPoint_square :
  addNewControlPoint polygonFragment chartGlobe
    (mkPosition 1%float 2.125%float 0%float) 0%float square
  = [mkLocation (Num 0) (Num 0); mkLocation (Num 0) (Num 2); mkLocation (Num 1) (Num 2);
     mkLocation (Num 2) (Num 2); mkLocation (Num 2) (Num 0)]%float
  /\ addNewControlPoint polygonFragment chartGlobe
       (mkPosition 1%float (-0.5)%float 0%float) 0%float square
     = (square ++ [mkLocation (Num 1) (Num 0)])%float.
Proof. split; reflexivity. Qed.


(** ** Rotation *)

Section RotateFacts.
Context {num : Type} `{Number num}.
Variable gc : GreatCircle num.
Variables (center : Location num) (deltaHeading : num).
Implicit Types (s : lstore num) (ls : list lref).

Lemma foldl_rings {S A} (f : S -> A -> S) (acc : S) (rs : list (list A)) :
  foldl (fun acc ring => foldl f acc ring) acc rs = foldl f acc (concat rs).
Proof.
  revert acc. induction rs as [|r rs IH]; intros acc; simpl; [done|].
  by rewrite IH, foldl_app.
Qed.

Lemma foldl_rotateElement s ls :
  foldl (rotateElement gc center deltaHeading) s (map Some ls)
  = foldl (rotateLocation gc center deltaHeading) s ls.
Proof. revert s. induction ls as [|a ls IH]; intros s; simpl; [done|]. apply IH. Qed.

Lemma rotateLocation_length s a :
  length (rotateLocation gc center deltaHeading s a) = length s.
Proof. unfold rotateLocation. apply length_insert. Qed.





End RotateFacts.





(** ** Nearest point on a segment *)

Section NearestFacts.
Context {num : Type} `{Number num}.
Local Open Scope js_scope.

(** The store after a call on three distinct objects, and the object
    returned: [p2] has been overwritten with the segment vector, [point] with
    its offset from [p1]. *)
Lemma nearestPointOnSegment_run (p1 p2 point : Vec3 num) :
  let segment := Vec3M.vsub p2 p1 in
  let dir := Vec3M.vnormalize segment in
  let dot := Vec3M.vdot (Vec3M.vsub point p1) dir in
  nearestPointOnSegment 0 1 2 [p1; p2; point]
  = if dot <? #0 then (0%nat, [p1; segment; Vec3M.vsub point p1; dir])
    else if dot >? Vec3M.vmagnitude segment
    then (1%nat, [p1; segment; Vec3M.vsub point p1; dir])
    else (4%nat, [p1; segment; Vec3M.vsub point p1; dir;
                  Vec3M.vadd p1 (Vec3M.vscale dir dot)]).
Proof.
  intros segment dir dot. unfold nearestPointOnSegment.
  unfold mbind, State_bind, mret, State_ret. simpl.
  fold segment. fold dir. fold dot.
  destruct (dot <? #0); [reflexivity|]. simpl.
  destruct (dot >? Vec3M.vmagnitude segment); reflexivity.
Qed.

Lemma nearestPointOnSegment_value_cases (p1 p2 point : Vec3 num) :
  let segment := Vec3M.vsub p2 p1 in
  let dir := Vec3M.vnormalize segment in
  let dot := Vec3M.vdot (Vec3M.vsub point p1) dir in
  nearestPointOnSegment_value p1 p2 point
  = if dot <? #0 then p1
    else if dot >? Vec3M.vmagnitude segment then segment
    else Vec3M.vadd p1 (Vec3M.vscale dir dot).
Proof.
  intros segment dir dot. unfold nearestPointOnSegment_value.
  rewrite nearestPointOnSegment_run. fold segment. fold dir. fold dot.
  destruct (dot <? #0); [done|].
  by destruct (dot >? Vec3M.vmagnitude segment).
Qed.
End NearestFacts.

(** C1, at an input beyond the second end point: the projection parameter
    is 9 and the segment is 2 long, so the function returns the object [p2];
    but [p2.subtract(p1)] has overwritten that object with the segment vector,
    and the point that comes back is (2, 0, 0), not the end point (3, 0, 0). *)
Theorem nearestPointOnSegment_beyond_p2 :
  let p1 := mkVec3 1%float 0%float 0%float in
  let p2 := mkVec3 3%float 0%float 0%float in
  let point := mkVec3 10%float 0%float 0%float in
  (Vec3M.vdot (Vec3M.vsub point p1) (Vec3M.vnormalize (Vec3M.vsub p2 p1)) = 9
   /\ Vec3M.vmagnitude (Vec3M.vsub p2 p1) = 2)%float
  /\ nearestPointOnSegment 0 1 2 [p1; p2; point]
     = (1%nat, [p1; mkVec3 2 0 0; mkVec3 9 0 0; mkVec3 1 0 0])%float
  /\ nearestPointOnSegment_value p1 p2 point = mkVec3 2%float 0%float 0%float
  /\ nearestPointOnSegment_value p1 p2 point <> p2.
Proof.
  intros p1 p2 point. split; [split; reflexivity|].
  split; [reflexivity|]. split; [reflexivity|].
  intros Heq. apply (f_equal (fun v => PrimFloat.eqb (vx v) 3)) in Heq.
  vm_compute in Heq. discriminate Heq.
Qed.

Section NearestReal.
Local Open Scope R_scope.

Lemma vmagnitude_pos (v : Vec3 R) :
  v <> Vec3M.ZERO -> 0 < Vec3M.vmagnitude v.
Proof.
  intros Hne. unfold Vec3M.vmagnitude, Vec3M.vdot. simpl.
  apply sqrt_lt_R0. destruct v as [x y z]. simpl.
  assert (Hsq : x <> 0 \/ y <> 0 \/ z <> 0).
  { destruct (Req_dec x 0) as [->|]; [|tauto].
    destruct (Req_dec y 0) as [->|]; [|tauto].
    destruct (Req_dec z 0) as [->|]; [|tauto].
    exfalso. apply Hne. reflexivity. }
  nra.
Qed.

(** In exact arithmetic, between the end points of a segment of distinct
    points the function yields a point of the segment; before the first end
    point it yields that end point. *)
Lemma nearestPointOnSegment_on_segment (p1 p2 point : Vec3 R) :
  p1 <> p2 ->
  let segment := Vec3M.vsub p2 p1 in
  let dot := Vec3M.vdot (Vec3M.vsub point p1) (Vec3M.vnormalize segment) in
  (dot < 0 -> nearestPointOnSegment_value p1 p2 point = p1)
  /\ (Vec3M.vmagnitude segment < dot ->
      nearestPointOnSegment_value p1 p2 point = segment)
  /\ (0 <= dot <= Vec3M.vmagnitude segment ->
      exists t, 0 <= t <= 1
        /\ nearestPointOnSegment_value p1 p2 point
           = Vec3M.vadd p1 (Vec3M.vscale segment t)).
Proof.
  intros Hne segment dot.
  rewrite nearestPointOnSegment_value_cases. fold segment. fold dot.
  assert (Hm : 0 < Vec3M.vmagnitude segment).
  { apply vmagnitude_pos. intros Hz. apply Hne.
    destruct p1 as [x1 y1 z1], p2 as [x2 y2 z2].
    unfold segment, Vec3M.vsub, Vec3M.ZERO in Hz. simpl in Hz.
    inversion Hz. f_equal; lra. }
  set (m := Vec3M.vmagnitude segment) in *.
  cbn [nlt ofZ R_Number]. unfold Rltb. repeat split.
  - intros Hd. by destruct (Rlt_dec dot 0).
  - intros Hd. destruct (Rlt_dec dot 0); [lra|].
    by destruct (Rlt_dec m dot).
  - intros Hd. destruct (Rlt_dec dot 0); [lra|].
    destruct (Rlt_dec m dot); [lra|].
    exists (dot / m). split.
    + split.
      * apply Rmult_le_pos; [lra|]. left. by apply Rinv_0_lt_compat.
      * apply Rmult_le_reg_r with m; [done|].
        unfold Rdiv. rewrite Rmult_assoc, Rinv_l by lra. lra.
    + unfold Vec3M.vnormalize. fold m.
      unfold Vec3M.vadd, Vec3M.vscale. cbn [nadd nmul ndiv ofZ R_Number vx vy vz].
      f_equal; field; lra.
Qed.
End NearestReal.

(** ** The abstract contract *)

Lemma throwUnsupported_throws {Objects A : Type} className functionName message
    (w : World Objects) :
  throwsUnsupported w
    (throwUnsupported (A := A) LEVEL_SEVERE className functionName message w).
Proof.
  exists (Logger.makeMessage className functionName message).
  unfold throwUnsupported, Logger.logMessage. simpl. auto.
Qed.

(** C8: each of the six contract methods of the base fragment, whatever its
    arguments and whatever the state it is called in, ends by throwing an
    unsupported-operation error after one severe diagnostic; it never returns
    and leaves every object as it was. *)
Theorem abstract_methods_throw
    (Objects Shape GlobeT Renderables Attributes Renderable PositionT : Type)
    (w : World Objects) (shape : Shape) (globe : GlobeT)
    (controlPoints accessories : Renderables) (a1 a2 a3 : Attributes)
    (controlPoint : Renderable) (currentPosition previousPosition : PositionT)
    (secondaryBehavior : bool) :
  throwsUnsupported w (canHandle shape w)
  /\ throwsUnsupported w (createShadowShape shape w)
  /\ throwsUnsupported w (getShapeCenter (PositionT := PositionT) shape globe w)
  /\ throwsUnsupported w
       (initializeControlElements shape controlPoints accessories a1 a2 a3 w)
  /\ throwsUnsupported w (updateControlElements shape globe controlPoints accessories w)
  /\ throwsUnsupported w
       (reshape shape globe controlPoint currentPosition previousPosition
          secondaryBehavior w).
Proof.
  repeat split; apply throwUnsupported_throws.
Qed.

(** ** Control points *)

(** C9, as the code has it: [createControlPoint] appends exactly one control
    point to the array; the point is clamped to the ground, sits at (0, 0),
    carries the purpose it was given, whatever that is, and carries an index
    exactly when one was given, whatever the purpose. *)
Theorem createControlPoint_appends {num : Type} `{Number num} {Attributes : Type}
    (controlPoints : list (Placemark num Attributes)) (attrs : Attributes)
    (purpose : string) (index : option nat) :
  exists controlPoint,
    createControlPoint controlPoints attrs purpose index = controlPoints ++ [controlPoint]
    /\ length (createControlPoint controlPoints attrs purpose index)
       = S (length controlPoints)
    /\ altitudeMode controlPoint = WorldWind.CLAMP_TO_GROUND
    /\ position controlPoint = mkLocation (Num (ofZ 0)) (Num (ofZ 0))
    /\ attributes controlPoint = attrs
    /\ userProperties controlPoint !! "purpose" = Some (PString purpose)
    /\ userProperties controlPoint !! "index" = PNumber <$> index.
Proof.
  unfold createControlPoint.
  eexists. split; [reflexivity|].
  split; [rewrite length_app; simpl; lia|].
  destruct index as [i|]; simpl; repeat split.
Qed.

(** C9 as stated fails: nothing ties the index to the purpose, and nothing
    checks the purpose. A rotation control point created with an index carries
    the index; a control point created with a purpose outside the six
    constants carries that purpose. *)
Lemma createControlPoint_purpose_unchecked :
  (exists controlPoint : Placemark float unit,
      createControlPoint [] tt ShapeEditorConstants.ROTATION (Some 3%nat) = [controlPoint]
      /\ userProperties controlPoint !! "purpose"
         = Some (PString ShapeEditorConstants.ROTATION)
      /\ userProperties controlPoint !! "index" = Some (PNumber 3))
  /\ (exists controlPoint : Placemark float unit,
      createControlPoint [] tt "scale" None = [controlPoint]
      /\ userProperties controlPoint !! "purpose" = Some (PString "scale")
      /\ "scale" ∉ ShapeEditorConstants.all).
Proof.
  split; eexists; (split; [reflexivity|]); repeat split.
  unfold ShapeEditorConstants.all. intros Hin.
  repeat (apply elem_of_cons in Hin as [Hin|Hin]; [discriminate Hin|]).
  by apply elem_of_nil in Hin.
Qed.

(** * Frame conditions and algebraic laws *)

(** ** Moving a control point *)

Section MoveFacts.
Context {num : Type} `{Number num}.
Implicit Types (s : vstore num).

Lemma lookup_new {A} (l1 l2 : list A) k : (l1 ++ l2) !! (length l1 + k) = l2 !! k.
Proof. rewrite lookup_app_r by lia. f_equal. lia. Qed.

Lemma lookup_new0 {A} (l1 l2 : list A) : (l1 ++ l2) !! (length l1) = l2 !! 0.
Proof. rewrite <- (Nat.add_0_r (length l1)). apply lookup_new. Qed.

Lemma insert_new {A} (l1 l2 : list A) k x :
  <[length l1 + k := x]> (l1 ++ l2) = l1 ++ <[k := x]> l2.
Proof. apply insert_app_r. Qed.

Lemma insert_new0 {A} (l1 l2 : list A) x :
  <[length l1 := x]> (l1 ++ l2) = l1 ++ <[0 := x]> l2.
Proof. rewrite <- (Nat.add_0_r (length l1)) at 1. apply insert_new. Qed.

(** Runs the allocations, reads and writes of [computeControlPointDelta] and
    [moveLocation] on a store. *)
Ltac run_store :=
  unfold moveLocation, computeControlPointDelta, newGlobePoint,
    Vec3M.subtract, Vec3M.add, Vec3M.new, Vec3M.wr, Vec3M.rd,
    mbind, State_bind, mret, State_ret;
  cbn beta iota zeta;
  repeat first
    [ rewrite length_insert
    | rewrite length_app
    | rewrite insert_new
    | rewrite insert_new0
    | rewrite lookup_new
    | rewrite lookup_new0
    | rewrite <- app_assoc
    | rewrite <- Nat.add_assoc
    | progress cbn [app length list_insert insert lookup list_lookup default
                    from_option id Nat.add] ].

(** The returned object is new and holds the difference; the second point
    stays behind it in the store. *)
Lemma computeControlPointDelta_run (globe : Globe num) (a b : Position num) s :
  computeControlPointDelta globe a b s
  = (length s,
     s ++ [Vec3M.vsub (surfacePoint globe a) (surfacePoint globe b);
           surfacePoint globe b]).
Proof. run_store. reflexivity. Qed.

Lemma moveLocation_run {Attributes : Type} (globe : Globe num)
    (controlPoint : Placemark num Attributes)
    (terrainPosition previousPosition : Position num) s :
  let delta :=
    Vec3M.vsub (surfacePoint globe previousPosition)
               (surfacePoint globe terrainPosition) in
  let moved := Vec3M.vadd (pointOf globe (position controlPoint)) delta in
  moveLocation globe controlPoint terrainPosition previousPosition s
  = (positionOf globe moved,
     s ++ [delta; surfacePoint globe terrainPosition; moved]).
Proof. intros delta moved. run_store. reflexivity. Qed.
End MoveFacts.

(** X1. [moveLocation] returns the position of the control point's surface
    point displaced by the surface point of [previousPosition] minus the
    surface point of [terrainPosition]: the difference
    [computeControlPointDelta] returns for the arguments in the order
    [moveLocation] passes them. The call changes no [Vec3] object that existed
    before it; it leaves three new ones behind. *)
Theorem moveLocation_moves_marker {num : Type} `{Number num} {Attributes : Type}
    (globe : Globe num) (controlPoint : Placemark num Attributes)
    (terrainPosition previousPosition : Position num) (s : vstore num) :
  (moveLocation globe controlPoint terrainPosition previousPosition s).1
  = positionOf globe
      (Vec3M.vadd (pointOf globe (position controlPoint))
         (Vec3M.vsub (surfacePoint globe previousPosition)
                     (surfacePoint globe terrainPosition)))
  /\ exists temporaries,
       (moveLocation globe controlPoint terrainPosition previousPosition s).2
       = s ++ temporaries
       /\ length temporaries = 3%nat.
Proof.
  rewrite moveLocation_run. simpl. split; [reflexivity|].
  eexists. split; reflexivity.
Qed.

Section MoveReal.
Local Open Scope R_scope.

(** X2. In exact arithmetic, when the picked position and the previous one
    have the same latitude and longitude, [moveLocation] returns the position
    of the control point's own surface point: altitudes of the two positions
    play no part, and nothing moves. *)
Theorem moveLocation_without_drag {Attributes : Type} (globe : Globe R)
    (controlPoint : Placemark R Attributes)
    (terrainPosition previousPosition : Position R) (s : vstore R) :
  p_latitude terrainPosition = p_latitude previousPosition ->
  p_longitude terrainPosition = p_longitude previousPosition ->
  (moveLocation globe controlPoint terrainPosition previousPosition s).1
  = positionOf globe (pointOf globe (position controlPoint)).
Proof.
  intros Hlat Hlon. rewrite moveLocation_run. simpl. f_equal.
  unfold surfacePoint. rewrite Hlat, Hlon.
  destruct (pointOf globe (position controlPoint)) as [x y z].
  unfold Vec3M.vadd, Vec3M.vsub. simpl. f_equal; ring.
Qed.

(** A control point at (10, 20) on the chart, and two positions over the same
    spot at altitudes 0 and 500. *)
Lemma moveLocation_without_drag_witness :
  let marker : Placemark R unit :=
    newPlacemark (mkLocation (Num 10) (Num 20)) false tt in
  let here := mkPosition 1 2 0 in
  let there := mkPosition 1 2 500 in
  (p_latitude here = p_latitude there /\ p_longitude here = p_longitude there)
  /\ (moveLocation chartGlobeR marker here there []).1 = mkPosition 10 20 0.
Proof.
  intros marker here there. split; [split; reflexivity|].
  rewrite (moveLocation_without_drag chartGlobeR marker here there []); reflexivity.
Defined.

(** X3. In exact arithmetic [computeControlPointDelta] is antisymmetric: the
    vector it returns for (A, B) is the surface point of A minus that of B,
    the vector for (B, A) is its negation, and the vector for (A, A) is
    zero. *)
Theorem computeControlPointDelta_antisymmetric (globe : Globe R)
    (positionA positionB : Position R) (s : vstore R) :
  let '(ab, s1) := computeControlPointDelta globe positionA positionB s in
  let '(ba, s2) := computeControlPointDelta globe positionB positionA s in
  let '(aa, s3) := computeControlPointDelta globe positionA positionA s in
  exists v : Vec3 R,
    s1 !! ab = Some v
    /\ s2 !! ba = Some (mkVec3 (- vx v) (- vy v) (- vz v))
    /\ s3 !! aa = Some (mkVec3 0 0 0)
    /\ v = Vec3M.vsub (surfacePoint globe positionA) (surfacePoint globe positionB).
Proof.
  rewrite !computeControlPointDelta_run.
  exists (Vec3M.vsub (surfacePoint globe positionA) (surfacePoint globe positionB)).
  rewrite !lookup_new0. simpl.
  repeat split; f_equal; unfold Vec3M.vsub; simpl; f_equal; ring.
Qed.
End MoveReal.

(** ** The rotation accessory *)

Section AccessoryFacts.
Context {num : Type} `{Number num} {Attributes Color Rest : Type}.
Variable imageColor : Attributes -> Color.
Variable defaultShapeAttributes : ShapeAttributes num Color Rest.
Implicit Types (accessories : list (Path num Color Rest)).

(** X4. [createRotationAccessory] appends one line to the accessories and
    changes none of those present: a path through two positions (0, 0, 0),
    outlined in the image colour of the attributes with width 2, clamped to
    the ground and following the terrain. [updateRotationAccessory] writes
    to the first accessory: on the array just extended it reaches the new
    line only when the array was empty before, and otherwise an older
    accessory. *)
Theorem rotationAccessory_created_last_updated_first accessories
    (attributes : Attributes) (center handle : Position num) :
  let created := createRotationAccessory imageColor defaultShapeAttributes
                   accessories attributes in
  exists line,
    created = accessories ++ [line]
    /\ positions line
       = [mkPosition (ofZ 0) (ofZ 0) (ofZ 0); mkPosition (ofZ 0) (ofZ 0) (ofZ 0)]
    /\ outlineColor (pathAttributes line) = imageColor attributes
    /\ outlineWidth (pathAttributes line) = ofZ 2
    /\ otherAttributes (pathAttributes line) = otherAttributes defaultShapeAttributes
    /\ pathAltitudeMode line = WorldWind.CLAMP_TO_GROUND
    /\ followTerrain line = true
    /\ match accessories with
       | [] =>
           updateRotationAccessory center handle created
           = Some [setPositions [center; handle] line]
       | first :: others =>
           updateRotationAccessory center handle created
           = Some (setPositions [center; handle] first :: others ++ [line])
       end.
Proof.
  intros created. eexists. split; [reflexivity|].
  repeat split. destruct accessories; reflexivity.
Qed.

(** X5. [updateRotationAccessory] fails exactly on an empty array of
    accessories. Otherwise it keeps the number of accessories and every
    accessory but the first, and of the first it replaces the positions by
    the centre and the control point's position, keeping attributes, altitude
    mode and terrain following; a later update overrides an earlier one. *)
Theorem updateRotationAccessory_first_only accessories
    (center handle center' handle' : Position num) :
  (updateRotationAccessory center handle accessories = None <-> accessories = [])
  /\ (forall updated,
        updateRotationAccessory center handle accessories = Some updated ->
        length updated = length accessories
        /\ (forall i, (0 < i)%nat -> updated !! i = accessories !! i)
        /\ (exists first line,
              accessories !! 0%nat = Some first /\ updated !! 0%nat = Some line
              /\ positions line = [center; handle]
              /\ pathAttributes line = pathAttributes first
              /\ pathAltitudeMode line = pathAltitudeMode first
              /\ followTerrain line = followTerrain first)
        /\ updateRotationAccessory center' handle' updated
           = updateRotationAccessory center' handle' accessories).
Proof.
  destruct accessories as [|first others]; simpl.
  - split; [done|]. intros updated Hup. discriminate Hup.
  - split; [split; intros Hx; discriminate Hx|].
    intros updated Hup. inversion Hup; subst. simpl.
    split; [done|]. split.
    + intros [|i] Hi; [lia|done].
    + split; [|done]. exists first. eexists. repeat split.
Qed.
End AccessoryFacts.

(** ** Inserting a vertex: what stays *)

Section InsertionFacts.
Context {num : Type} `{Number num}.
Variables (this : Fragment num) (globe : Globe num).
Variables (altitude : num) (pointPicked : Vec3 num).
Variable locations : list (Location num).



End InsertionFacts.


(** ** Deep copy: what is allocated *)

Section CopyFrame.
Context {num : Type}.
Implicit Types (s : lstore num).

Lemma copyElements_frame (es : list (option lref)) s :
  exists new,
    mapM copyElement es s = (seq (length s) (length es), s ++ new)
    /\ length new = length es.
Proof.
  revert s. induction es as [|e es IH]; intros s; simpl.
  - exists []. by rewrite app_nil_r.
  - unfold mbind, State_bind, copyElement, newLocation in *.
    set (l := mkLocation (elem_latitude (deref s <$> e)) (elem_longitude (deref s <$> e))).
    destruct (IH (s ++ [l])) as (new & Hrun & Hlen).
    rewrite Hrun. exists (l :: new). simpl.
    rewrite length_app, <- app_assoc. simpl. rewrite Nat.add_1_r.
    split; [done|]. by rewrite Hlen.
Qed.

Lemma copyRing_frame (ring : list lref) s :
  exists new,
    mapM (fun a => copyElement (Some a)) ring s = (seq (length s) (length ring), s ++ new)
    /\ length new = length ring.
Proof.
  revert s. induction ring as [|a ring IH]; intros s; simpl.
  - exists []. by rewrite app_nil_r.
  - unfold mbind, State_bind, copyElement, newLocation in *.
    set (l := mkLocation (elem_latitude (deref s <$> Some a))
                         (elem_longitude (deref s <$> Some a))).
    destruct (IH (s ++ [l])) as (new & Hrun & Hlen).
    rewrite Hrun. exists (l :: new). simpl.
    rewrite length_app, <- app_assoc. simpl. rewrite Nat.add_1_r.
    split; [done|]. by rewrite Hlen.
Qed.

Lemma copyRings_frame (rs : list (list lref)) s :
  exists new,
    mapM (mapM (fun a => copyElement (Some a))) rs s
    = (chunks (length s) (map length rs), s ++ new)
    /\ length new = length (concat rs).
Proof.
  revert s. induction rs as [|r rs IH]; intros s; simpl.
  - exists []. by rewrite app_nil_r.
  - destruct (copyRing_frame r s) as (new1 & Hrun1 & Hlen1).
    unfold mbind at 1. unfold State_bind at 1. rewrite Hrun1.
    destruct (IH (s ++ new1)) as (new2 & Hrun2 & Hlen2).
    unfold mbind at 1. unfold State_bind at 1. rewrite Hrun2.
    exists (new1 ++ new2). simpl.
    rewrite length_app, Hlen1, <- app_assoc, !length_app, Hlen1, Hlen2. done.
Qed.
End CopyFrame.

(** X7. [deepCopyLocations] changes no [Location] object that existed before
    the call, whatever boundary it is given and whether or not its
    references are valid: the store afterwards is the store before, followed
    by new objects. The copy refers to exactly the new objects, each once and
    in the order of allocation; there is one per vertex of a ringed boundary
    and one per element of a boundary walked as flat. *)
Theorem deepCopyLocations_only_allocates {num : Type}
    (s : lstore num) (locations : boundary lref) :
  exists new,
    (deepCopyLocations locations s).2 = s ++ new
    /\ vertices (deepCopyLocations locations s).1 = seq (length s) (length new)
    /\ length new
       = (if isRinged locations then length (vertices locations) else blength locations).
Proof.
  assert (Hrun : exists copy new,
            deepCopyLocations locations s = (copy, s ++ new)
            /\ vertices copy = seq (length s) (length new)
            /\ length new
               = (if isRinged locations then length (vertices locations)
                  else blength locations)).
  { unfold deepCopyLocations. destruct (isRinged locations) eqn:Hring.
    - destruct locations as [ls|rs]; [discriminate Hring|]. cbn [rings vertices].
      destruct (copyRings_frame rs s) as (new & Hrun & Hlen).
      unfold mbind at 1. unfold State_bind at 1. rewrite Hrun.
      eexists _, new. split; [reflexivity|]. split; [|done].
      simpl. rewrite concat_chunks, Hlen, length_concat. done.
    - destruct (copyElements_frame (elements locations) s) as (new & Hrun & Hlen).
      unfold mbind at 1. unfold State_bind at 1. rewrite Hrun.
      eexists _, new. split; [reflexivity|]. simpl. rewrite Hlen.
      destruct locations as [ls|rs]; cbn [elements blength]; by rewrite length_map. }
  destruct Hrun as (copy & new & Hrun & Hrefs & Hlen).
  exists new. by rewrite Hrun.
Qed.

(** X8. Rings that [deepCopyLocations] takes for a flat sequence (there are
    none, or the first has at most two vertices) lose their vertices: the
    copy is a flat sequence of new locations, one per ring, each with
    latitude and longitude undefined. *)
Theorem deepCopyLocations_misread_rings {num : Type}
    (s : lstore num) (rs : list (list lref)) :
  isRinged (Ringed rs) = false ->
  deepCopyLocations (Ringed rs) s
  = (Flat (seq (length s) (length rs)),
     s ++ replicate (length rs) (mkLocation Undefined Undefined)).
Proof.
  intros Hring. unfold deepCopyLocations. rewrite Hring.
  assert (Hrun : forall (xs : list (list lref)) s0,
            mapM copyElement (map (fun _ => None) xs) s0
            = (seq (length s0) (length xs),
               s0 ++ replicate (length xs) (mkLocation Undefined Undefined) : lstore num)).
  { induction xs as [|x xs IH]; intros s0; simpl.
    - by rewrite app_nil_r.
    - unfold mbind, State_bind, copyElement, newLocation in *. simpl.
      rewrite IH. rewrite length_app, <- app_assoc. simpl. by rewrite Nat.add_1_r. }
  unfold mbind, State_bind. simpl. by rewrite Hrun.
Qed.

(** Two rings, the first of two vertices, over the store of the square. *)
Lemma deepCopyLocations_misread_rings_witness :
  isRinged (Ringed [[0; 1]; [2; 3; 4]] : boundary lref) = false
  /\ deepCopyLocations (Ringed [[0; 1]; [2; 3; 4]]) squareStore
     = (Flat [5; 6],
        squareStore ++ [mkLocation Undefined Undefined; mkLocation Undefined Undefined]).
Proof.
  split; [reflexivity|].
  exact (deepCopyLocations_misread_rings squareStore [[0; 1]; [2; 3; 4]] eq_refl).
Defined.

(** ** Rotation: what stays *)

Section RotateFrame.
Context {num : Type} `{Number num}.
Variable gc : GreatCircle num.
Variables (center : Location num) (deltaHeading : num).
Implicit Types (s : lstore num) (ls : list lref).

Lemma rotate_all_length s ls :
  length (foldl (rotateLocation gc center deltaHeading) s ls) = length s.
Proof.
  revert s. induction ls as [|a ls IH]; intros s; simpl; [done|].
  by rewrite IH, rotateLocation_length.
Qed.

Lemma rotate_all_lookup_other s ls b :
  b ∉ ls -> foldl (rotateLocation gc center deltaHeading) s ls !! b = s !! b.
Proof.
  revert s. induction ls as [|a ls IH]; intros s Hb; simpl; [done|].
  apply not_elem_of_cons in Hb as [Hne Hb].
  rewrite IH by done. unfold rotateLocation. by apply list_lookup_insert_ne.
Qed.

Lemma rotate_rings_skipped s (rs : list (list lref)) :
  foldl (rotateElement gc center deltaHeading) s (map (fun _ => None) rs) = s.
Proof. revert s. induction rs as [|r rs IH]; intros s; simpl; [done|]. apply IH. Qed.
End RotateFrame.

(** X9. [rotateLocations] creates and removes no [Location] object and
    changes none that is not a vertex of the boundary. It changes no object at
    all when the boundary is flat with fewer than two locations, and none
    when the boundary is made of rings that it takes for a flat sequence
    (the first ring has at most two vertices): their vertices are not
    rotated. *)
Theorem rotateLocations_frame {num : Type} `{Number num}
    (globe : Globe num) (gc : GreatCircle num)
    (terrainPosition previousPosition : Position num)
    (s : lstore num) (locations : boundary lref) :
  let rotated :=
    (rotateLocations globe gc terrainPosition previousPosition locations s).2 in
  length rotated = length s
  /\ (forall a, a ∉ vertices locations -> rotated !! a = s !! a)
  /\ (isRinged locations = false -> blength locations < 2 -> rotated = s)
  /\ (forall rs, locations = Ringed rs -> isRinged locations = false -> rotated = s).
Proof.
  unfold rotateLocations. cbn [snd].
  set (center := asLocation (getCenter globe (resolve s locations))).
  set (delta := nsub (greatCircleAzimuth gc center (asLocation terrainPosition))
                     (greatCircleAzimuth gc center (asLocation previousPosition))).
  destruct (isRinged locations) eqn:Hring.
  - destruct locations as [ls|rs]; [discriminate Hring|]. cbn [rings vertices].
    rewrite (foldl_rings (rotateLocation gc center delta) s rs).
    split; [apply rotate_all_length|].
    split; [intros a Ha; by apply rotate_all_lookup_other|].
    split; [done|]. intros rs' _ Hx. discriminate Hx.
  - case_bool_decide as Hlen.
    + destruct locations as [ls|rs]; cbn [elements vertices].
      * rewrite foldl_rotateElement.
        split; [apply rotate_all_length|].
        split; [intros a Ha; by apply rotate_all_lookup_other|].
        split; [intros _ Hlt; simpl in Hlt, Hlen; lia|]. intros rs Hx. discriminate Hx.
      * rewrite rotate_rings_skipped. repeat split; done.
    + repeat split; done.
Qed.

(** ** Centre: the order of the vertices *)

Section CenterReal.
Local Open Scope R_scope.

Lemma vadd_swap (a b c : Vec3 R) :
  Vec3M.vadd (Vec3M.vadd a b) c = Vec3M.vadd (Vec3M.vadd a c) b.
Proof. unfold Vec3M.vadd. simpl. f_equal; ring. Qed.

Lemma foldl_vadd_Permutation (ps qs : list (Vec3 R)) :
  ps ≡ₚ qs -> forall acc, foldl Vec3M.vadd acc ps = foldl Vec3M.vadd acc qs.
Proof.
  induction 1 as [|p ps qs _ IH|p q ps|ps qs rs _ IH1 _ IH2]; intros acc; simpl.
  - done.
  - apply IH.
  - by rewrite vadd_swap.
  - by rewrite IH1.
Qed.

(** X10. In exact arithmetic the centre depends on the set of vertices only,
    with their multiplicities: two boundaries that [getCenter] walks as what
    they are and whose vertices are the same up to order have the same
    centre, whatever the order of the vertices and however they are grouped
    into rings. *)
Theorem getCenter_order_irrelevant (globe : Globe R)
    (locations locations' : boundary (Location R)) :
  centerDefined locations -> centerDefined locations' ->
  vertices locations ≡ₚ vertices locations' ->
  getCenter globe locations = getCenter globe locations'.
Proof.
  intros Hdef Hdef' Hperm. unfold getCenter.
  rewrite !getCenter_loops_defined by done.
  rewrite (foldl_vadd_Permutation (map (pointOf globe) (vertices locations))
             (map (pointOf globe) (vertices locations'))) by (by apply fmap_Permutation).
  by rewrite (Permutation_length Hperm).
Qed.

(** The corners of a square as a flat boundary, and in reverse order as two
    rings. *)
Lemma getCenter_order_irrelevant_witness :
  let a := mkLocation (Num 0) (Num 0) in
  let b := mkLocation (Num 0) (Num 2) in
  let c := mkLocation (Num 2) (Num 2) in
  let d := mkLocation (Num 2) (Num 0) in
  (centerDefined (Flat [a; b; c; d]) /\ centerDefined (Ringed [[d; c; b]; [a]])
   /\ vertices (Flat [a; b; c; d]) ≡ₚ vertices (Ringed [[d; c; b]; [a]]))
  /\ getCenter chartGlobeR (Flat [a; b; c; d])
     = getCenter chartGlobeR (Ringed [[d; c; b]; [a]]).
Proof.
  intros a b c d.
  assert (Hdef : centerDefined (Flat [a; b; c; d])) by (simpl; lia).
  assert (Hdef' : centerDefined (Ringed [[d; c; b]; [a]])) by reflexivity.
  assert (Hperm : vertices (Flat [a; b; c; d]) ≡ₚ vertices (Ringed [[d; c; b]; [a]])).
  { simpl. by apply (Permutation_rev [a; b; c; d]). }
  split; [done|].
  exact (getCenter_order_irrelevant chartGlobeR _ _ Hdef Hdef' Hperm).
Defined.
End CenterReal.

(** ** Average distance: bounds *)

Section AverageReal.
Local Open Scope R_scope.

Lemma distanceToCenter_nonneg (globe : Globe R) (center l : Location R) :
  0 <= distanceToCenter globe center l.
Proof. unfold distanceToCenter, Vec3M.vdistanceTo, Vec3M.vmagnitude. apply sqrt_pos. Qed.

Lemma Rsum_bounds (ds : list R) (D : R) :
  Forall (fun d => 0 <= d <= D) ds -> 0 <= Rsum ds <= INR (length ds) * D.
Proof.
  induction 1 as [|d ds Hd _ IH]; unfold Rsum in *; simpl foldr.
  - simpl. lra.
  - rewrite length_cons, S_INR. lra.
Qed.

Lemma getAverageDistance_as_mean (globe : Globe R) (center : Location R)
    (locations : list (Location R)) :
  locations <> [] ->
  getAverageDistance globe center locations
  = Rsum (map (distanceToCenter globe center) locations)
    / INR (length locations) / equatorialRadius globe.
Proof.
  intros Hne. unfold getAverageDistance.
  rewrite bool_decide_false by (by destruct locations).
  change (foldl (fun t l0 => t + distanceToCenter globe center l0
                              / IZR (Z.of_nat (length locations))) 0 locations
          / equatorialRadius globe
          = Rsum (map (distanceToCenter globe center) locations)
            / INR (length locations) / equatorialRadius globe).
  rewrite totalDistance_foldl, <- INR_IZR_INZ. by rewrite Rplus_0_l.
Qed.

(** X11. In exact arithmetic, on a globe of positive radius, the average
    distance is never negative and never more than the largest cartesian
    distance from a location to the centre, in units of the radius: when no
    location is farther than [D] from the centre, the result lies between 0
    and [D / equatorialRadius]. This includes the empty list, for which the
    result is 0. *)
Theorem getAverageDistance_bounds (globe : Globe R) (center : Location R)
    (locations : list (Location R)) (D : R) :
  0 < equatorialRadius globe -> 0 <= D ->
  Forall (fun l => distanceToCenter globe center l <= D) locations ->
  0 <= getAverageDistance globe center locations <= D / equatorialRadius globe.
Proof.
  intros Hradius HD Hnear.
  destruct locations as [|l ls].
  - unfold getAverageDistance. simpl. split; [lra|].
    apply Rmult_le_pos; [lra|]. left. by apply Rinv_0_lt_compat.
  - rewrite getAverageDistance_as_mean by done.
    set (ds := map (distanceToCenter globe center) (l :: ls)).
    assert (Hds : Forall (fun d => 0 <= d <= D) ds).
    { unfold ds. apply Forall_fmap. eapply Forall_impl; [exact Hnear|].
      intros x Hx. simpl in *. split; [apply distanceToCenter_nonneg|done]. }
    apply Rsum_bounds in Hds.
    assert (Hlen : length ds = length (l :: ls)) by (unfold ds; by rewrite length_map).
    rewrite Hlen in Hds.
    assert (Hn : 0 < INR (length (l :: ls))) by (apply lt_0_INR; simpl; lia).
    set (n := INR (length (l :: ls))) in *. set (r := equatorialRadius globe) in *.
    set (t := Rsum ds) in *.
    assert (Hinvn : 0 < / n) by (by apply Rinv_0_lt_compat).
    assert (Hinvr : 0 < / r) by (by apply Rinv_0_lt_compat).
    unfold Rdiv. split.
    + apply Rmult_le_pos; [apply Rmult_le_pos|]; lra.
    + apply Rmult_le_compat_r; [lra|].
      apply Rmult_le_reg_r with n; [done|].
      rewrite Rmult_assoc, Rinv_l by lra. lra.
Qed.

(** Two locations on the chart of unit radius, at distances 5 and 0 from the
    centre. *)
Lemma getAverageDistance_bounds_witness :
  let center := mkLocation (Num 0) (Num 0) in
  let locations := [mkLocation (Num 3) (Num 4); mkLocation (Num 0) (Num 0)] in
  (0 < equatorialRadius chartGlobeR /\ 0 <= 5
   /\ Forall (fun l => distanceToCenter chartGlobeR center l <= 5) locations)
  /\ 0 <= getAverageDistance chartGlobeR center locations <= 5 / 1.
Proof.
  intros center locations.
  assert (Hradius : 0 < equatorialRadius chartGlobeR) by (simpl; lra).
  assert (HD : 0 <= 5) by lra.
  assert (Hnear : Forall (fun l => distanceToCenter chartGlobeR center l <= 5) locations).
  { unfold locations. apply Forall_cons. split; [|apply Forall_cons; split; [|done]];
      unfold center, distanceToCenter, Vec3M.vdistanceTo, Vec3M.vmagnitude,
        Vec3M.vdot, Vec3M.vsub; simpl.
    - replace ((3 - 0) * (3 - 0) + (4 - 0) * (4 - 0) + (0 - 0) * (0 - 0)) with (5 * 5)
        by ring.
      rewrite sqrt_square by lra. lra.
    - replace ((0 - 0) * (0 - 0) + (0 - 0) * (0 - 0) + (0 - 0) * (0 - 0)) with 0 by ring.
      rewrite sqrt_0. lra. }
  split; [done|].
  exact (getAverageDistance_bounds chartGlobeR center locations 5 Hradius HD Hnear).
Defined.
End AverageReal.

(** ** Heading: algebra *)

Section HeadingAlgebra.
Local Open Scope R_scope.

Lemma wrapDegrees_fixed (t : R) : 0 <= t <= 360 -> wrapDegrees t = t.
Proof.
  intros Ht. unfold wrapDegrees.
  replace (Rltb 360 (Rabs t)) with false
    by (symmetry; apply Rltb_false; rewrite Rabs_pos_eq; lra).
  replace (Rleb 0 t) with true by (symmetry; apply Rleb_true; lra). done.
Qed.

(** X12. In exact arithmetic [normalizedHeading] depends on the sum of its
    two arguments only, so it is symmetric in them, and normalising a
    normalised heading with a zero delta returns it unchanged. Applying two
    deltas one after the other gives the heading that their sum gives, or
    one that differs from it by exactly 360 degrees (the two ends of the
    range). *)
Theorem normalizedHeading_idempotent (h d : R) :
  normalizedHeading (normalizedHeading h d) 0 = normalizedHeading h d
  /\ normalizedHeading h d = normalizedHeading d h
  /\ normalizedHeading h d = normalizedHeading (h + d) 0
  /\ (forall e, normalizedHeading (normalizedHeading h d) e
                = normalizedHeading h (d + e)
                \/ Rabs (normalizedHeading (normalizedHeading h d) e
                         - normalizedHeading h (d + e)) = 360).
Proof.
  rewrite !normalizedHeading_wrapDegrees.
  destruct (wrapDegrees_spec (h + d)) as (Hrange & _ & k & Hk).
  split; [|split; [|split]].
  - rewrite Rplus_0_r. by apply wrapDegrees_fixed.
  - by rewrite Rplus_comm.
  - by rewrite Rplus_0_r.
  - intros e. rewrite !normalizedHeading_wrapDegrees.
    destruct (wrapDegrees_spec (wrapDegrees (h + d) + e)) as (Hr1 & _ & k1 & Hk1).
    destruct (wrapDegrees_spec (h + (d + e))) as (Hr2 & _ & k2 & Hk2).
    set (x := wrapDegrees (wrapDegrees (h + d) + e)) in *.
    set (y := wrapDegrees (h + (d + e))) in *.
    assert (Hdiff : x - y = 360 * IZR (k + k1 - k2)).
    { rewrite minus_IZR, plus_IZR. lra. }
    assert (Hbound : (-2 < k + k1 - k2 < 2)%Z).
    { split; apply lt_IZR; lra. }
    assert (Hcases : (k + k1 - k2 = -1 \/ k + k1 - k2 = 0 \/ k + k1 - k2 = 1)%Z) by lia.
    destruct Hcases as [Hc|[Hc|Hc]]; rewrite Hc in Hdiff.
    + right. rewrite Hdiff. rewrite Rabs_left; lra.
    + left. lra.
    + right. rewrite Hdiff. rewrite Rabs_pos_eq; lra.
Qed.
End HeadingAlgebra.

(** ** Nearest point on a segment: any store *)

Section NearestStore.
Context {num : Type} `{Number num}.
Implicit Types (s : vstore num).
Local Open Scope js_scope.

Lemma vderef_insert_eq s r v : r < length s -> vderef (<[r := v]> s) r = v.
Proof. intros Hr. unfold vderef. by rewrite list_lookup_insert_eq. Qed.

Lemma vderef_insert_ne s r r' v : r <> r' -> vderef (<[r := v]> s) r' = vderef s r'.
Proof. intros Hr. unfold vderef. by rewrite list_lookup_insert_ne. Qed.

Lemma vderef_app_l s x r : r < length s -> vderef (s ++ x) r = vderef s r.
Proof. intros Hr. unfold vderef. by rewrite lookup_app_l. Qed.

Lemma vderef_app_new s v x n : n = length s -> vderef (s ++ v :: x) n = v.
Proof.
  intros ->. unfold vderef. rewrite lookup_app_r by lia. by rewrite Nat.sub_diag.
Qed.

Lemma insert_app_new s (v w : Vec3 num) x n :
  n = length s -> <[n := w]> (s ++ v :: x) = s ++ w :: x.
Proof. intros ->. rewrite insert_app_r_alt by lia. by rewrite Nat.sub_diag. Qed.

Ltac store_size := rewrite ?length_insert, ?length_app, ?length_insert; simpl; lia.

(** One read or write of a store that earlier writes and allocations built. *)
Ltac store_step :=
  first
    [ rewrite insert_app_new by store_size
    | rewrite vderef_app_new by store_size
    | rewrite vderef_insert_eq by store_size
    | rewrite vderef_insert_ne by lia
    | rewrite vderef_app_l by store_size ].

(** What a call does to a store in which the three arguments are distinct
    objects. *)
Lemma nearestPointOnSegment_in_store s (p1 p2 point : vref) :
  p1 <> p2 -> p1 <> point -> p2 <> point ->
  p1 < length s -> p2 < length s -> point < length s ->
  let segment := Vec3M.vsub (vderef s p2) (vderef s p1) in
  let dir := Vec3M.vnormalize segment in
  let offset := Vec3M.vsub (vderef s point) (vderef s p1) in
  let dot := Vec3M.vdot offset dir in
  let s' := <[point := offset]> (<[p2 := segment]> s) ++ [dir] in
  nearestPointOnSegment p1 p2 point s
  = if dot <? #0 then (p1, s')
    else if dot >? Vec3M.vmagnitude segment then (p2, s')
    else (S (length s), s' ++ [Vec3M.vadd (vderef s p1) (Vec3M.vscale dir dot)]).
Proof.
  intros H12 H1p H2p Hp1 Hp2 Hpoint segment dir offset dot s'.
  unfold nearestPointOnSegment, Vec3M.subtract, Vec3M.copy, Vec3M.normalize,
    Vec3M.dot, Vec3M.magnitude, Vec3M.fromLine, Vec3M.new, Vec3M.wr, Vec3M.rd,
    mbind, State_bind, mret, State_ret.
  cbn beta iota zeta.
  repeat change (default Vec3M.ZERO (?x !! ?r)) with (vderef x r).
  fold segment.
  rewrite !length_insert.
  repeat store_step.
  fold segment dir. fold offset. fold dot.
  rewrite insert_app_l by store_size.
  destruct (dot <? #0); [reflexivity|].
  repeat store_step. fold segment.
  destruct (dot >? Vec3M.vmagnitude segment); [reflexivity|].
  cbn beta. repeat store_step.
  rewrite length_app, !length_insert. simpl. rewrite Nat.add_1_r.
  reflexivity.
Qed.

(** X13. [nearestPointOnSegment] on any store in which [p1], [p2] and
    [point] are three distinct objects, on either number instance: the object
    returned is [p1], [p2] or a new one, and holds what the function yields
    for the three contents. The call leaves [p1] as it was but overwrites
    [p2] with [p2 - p1] and [point] with [point - p1]; every other object
    that existed before the call is unchanged. *)
Theorem nearestPointOnSegment_in_place s (p1 p2 point : vref) :
  p1 <> p2 -> p1 <> point -> p2 <> point ->
  p1 < length s -> p2 < length s -> point < length s ->
  let '(r, s') := nearestPointOnSegment p1 p2 point s in
  vderef s' r = nearestPointOnSegment_value (vderef s p1) (vderef s p2) (vderef s point)
  /\ (r = p1 \/ r = p2 \/ r = S (length s))
  /\ vderef s' p1 = vderef s p1
  /\ vderef s' p2 = Vec3M.vsub (vderef s p2) (vderef s p1)
  /\ vderef s' point = Vec3M.vsub (vderef s point) (vderef s p1)
  /\ (forall a, a < length s -> a <> p2 -> a <> point -> s' !! a = s !! a).
Proof.
  intros H12 H1p H2p Hp1 Hp2 Hpoint.
  rewrite nearestPointOnSegment_in_store by done.
  unfold nearestPointOnSegment_value.
  rewrite (nearestPointOnSegment_in_store
             [vderef s p1; vderef s p2; vderef s point] 0 1 2) by (simpl; lia).
  change (vderef [vderef s p1; vderef s p2; vderef s point] 0) with (vderef s p1).
  change (vderef [vderef s p1; vderef s p2; vderef s point] 1) with (vderef s p2).
  change (vderef [vderef s p1; vderef s p2; vderef s point] 2) with (vderef s point).
  set (segment := Vec3M.vsub (vderef s p2) (vderef s p1)).
  set (dir := Vec3M.vnormalize segment).
  set (offset := Vec3M.vsub (vderef s point) (vderef s p1)).
  set (dot := Vec3M.vdot offset dir).
  assert (Hother : forall x a, a < length s -> a <> p2 -> a <> point ->
            (<[point := offset]> (<[p2 := segment]> s) ++ x) !! a = s !! a).
  { intros x a Ha Ha2 Hap. rewrite lookup_app_l by store_size.
    by rewrite !list_lookup_insert_ne. }
  destruct (dot <? #0); [|destruct (dot >? Vec3M.vmagnitude segment)].
  - repeat store_step.
    change (default Vec3M.ZERO ([vderef s p1; segment; offset; dir] !! 0))
      with (vderef s p1).
    repeat split; auto.
  - repeat store_step. repeat split; auto.
  - change (default Vec3M.ZERO (_ !! 3))
      with (Vec3M.vadd (vderef s p1) (Vec3M.vscale dir dot)).
    repeat store_step. repeat split; auto.
    intros a Ha Ha2 Hap. rewrite <- app_assoc. by apply Hother.
Qed.
End NearestStore.

(** A run on binary64 numbers: the point (3, 4, 0) against the segment from
    (1, 0, 0) to (5, 0, 0), with a bystander in the store. *)
Lemma nearestPointOnSegment_in_place_witness :
  3 <> 1 /\ 3 <> 2 /\ 1 <> 2 /\
  3 < length fourPoints /\ 1 < length fourPoints /\ 2 < length fourPoints /\
  let '(r, s') := nearestPointOnSegment 3 1 2 fourPoints in
  vderef s' r
  = nearestPointOnSegment_value (vderef fourPoints 3) (vderef fourPoints 1)
      (vderef fourPoints 2)
  /\ (r = 3 \/ r = 1 \/ r = S (length fourPoints))
  /\ vderef s' 3 = vderef fourPoints 3
  /\ vderef s' 1 = Vec3M.vsub (vderef fourPoints 1) (vderef fourPoints 3)
  /\ vderef s' 2 = Vec3M.vsub (vderef fourPoints 2) (vderef fourPoints 3)
  /\ (forall a, a < length fourPoints -> a <> 1 -> a <> 2 -> s' !! a = fourPoints !! a).
Proof.
  repeat (split; [simpl; lia|]).
  apply (nearestPointOnSegment_in_place fourPoints 3 1 2); simpl; lia.
Defined.

(** ** Nearest point on a segment: optimality *)

Section NearestIsNearest.
Local Open Scope R_scope.




End NearestIsNearest.
